(** * protoc-gen-go-http-client: a shallow embedding of the generator in Rocq

    The development follows the Go sources of the plugin
    [cmd/protoc-gen-go-http-client]: [parseClientConfig] and
    [extractServices] (config.go), [Execute] and [groupServices]
    (main.go), the naming helpers, the code generators
    ([generateService], [buildPathConstruction], [generateNestedServices],
    [generateRootClient]) and the three text templates, together with the
    helpers [extractHTTPInfo], [extractPathParams] and [snakeToPascal]
    that the plugin calls.

    Go strings are modelled as [string] (a sequence of 8-bit [ascii]
    characters, i.e. bytes).  The identifiers the generator handles (proto
    package, service, method and field names) are ASCII, so the
    byte-oriented model of [strings.ToLower] below agrees with Go on them.
    [strings.ToUpper] is only ever applied to a one-byte string [s[:1]],
    where its effect on every byte, ASCII or not, is modelled exactly.  Go panics (a failed slice or index bound) are
    kept as an explicit outcome. *)

From Stdlib Require Import Ascii.
From stdpp Require Import base list gmap strings sorting.

(* ------------------------------------------------------------------ *)
(** ** Outcomes: a small error monad with Go's runtime panics *)

Inductive outcome (A : Type) : Type :=
| Ok (a : A)
| Err (msg : string)
| Panic.
Arguments Ok {A} a.
Arguments Err {A} msg.
Arguments Panic {A}.

Definition obind {A B} (m : outcome A) (k : A -> outcome B) : outcome B :=
  match m with
  | Ok a => k a
  | Err e => Err e
  | Panic => Panic
  end.

Notation "x <- m ;; k" := (obind m (fun x => k))
  (at level 100, m at next level, right associativity).

(* ------------------------------------------------------------------ *)
(** ** Go's [strings] package on byte strings *)

Module GoStrings.

Definition nl : string := String "010"%char EmptyString.
Definition tab : string := String "009"%char EmptyString.
Definition dq : string := String "034"%char EmptyString.

(** [strings.HasPrefix] *)
Fixpoint HasPrefix (s prefix : string) : bool :=
  match prefix, s with
  | EmptyString, _ => true
  | String p pr, String c r => bool_decide (c = p) && HasPrefix r pr
  | String _ _, EmptyString => false
  end.

(** [strings.HasSuffix]: [len(s) >= len(suffix) && s[len(s)-len(suffix):] == suffix] *)
Definition HasSuffix (s suffix : string) : bool :=
  (String.length suffix <=? String.length s)%nat &&
  String.eqb (String.substring (String.length s - String.length suffix)
                (String.length suffix) s) suffix.

(** [strings.TrimSuffix] *)
Definition TrimSuffix (s suffix : string) : string :=
  if HasSuffix s suffix
  then String.substring 0 (String.length s - String.length suffix) s
  else s.

(** [strings.TrimPrefix] *)
Definition TrimPrefix (s prefix : string) : string :=
  if HasPrefix s prefix
  then String.substring (String.length prefix)
         (String.length s - String.length prefix) s
  else s.

(** [unicode.ToLower] / [unicode.ToUpper] on one ASCII byte. *)
Definition lower_char (c : ascii) : ascii :=
  let n := N_of_ascii c in
  if (65 <=? n)%N && (n <=? 90)%N then ascii_of_N (n + 32) else c.

Definition upper_char (c : ascii) : ascii :=
  let n := N_of_ascii c in
  if (97 <=? n)%N && (n <=? 122)%N then ascii_of_N (n - 32) else c.

Fixpoint map_chars (f : ascii -> ascii) (s : string) : string :=
  match s with
  | EmptyString => EmptyString
  | String c r => String (f c) (map_chars f r)
  end.

(** [strings.ToLower] *)
Definition ToLower (s : string) : string := map_chars lower_char s.

(** The UTF-8 encoding of U+FFFD ([utf8.RuneError]): EF BF BD. *)
Definition RuneErrorUTF8 : string :=
  String (ascii_of_N 239) (String (ascii_of_N 191) (String (ascii_of_N 189) EmptyString)).

(** [strings.ToUpper] on a one-byte string, given by its byte (every call in
    the sources is [strings.ToUpper(s[:1])]).  A byte below 0x80 takes the
    ASCII path and is upper-cased; a byte from 0x80 up is no valid UTF-8
    sequence on its own, so [strings.Map] decodes it as [utf8.RuneError],
    which [unicode.ToUpper] keeps, and writes U+FFFD in its place. *)
Definition ToUpper (c : ascii) : string :=
  if (N_of_ascii c <? 128)%N then String (upper_char c) EmptyString
  else RuneErrorUTF8.

(** [s[:1]] and [s[1:]]; [s[:1]] panics on the empty string.  The
    one-byte string [s[:1]] is given by its byte. *)
Definition slice_to1 (s : string) : outcome ascii :=
  match s with
  | EmptyString => Panic
  | String c _ => Ok c
  end.

Definition slice_from1 (s : string) : string :=
  match s with
  | EmptyString => EmptyString
  | String _ r => r
  end.

(** [strings.Split(s, sep)] for a one-byte separator. *)
Fixpoint Split (s : string) (sep : ascii) : list string :=
  match s with
  | EmptyString => [EmptyString]
  | String c r =>
      if bool_decide (c = sep) then EmptyString :: Split r sep
      else match Split r sep with
           | h :: t => String c h :: t
           | [] => [String c EmptyString]
           end
  end.

(** [strings.Join(elems, sep)] *)
Fixpoint Join (elems : list string) (sep : string) : string :=
  match elems with
  | [] => EmptyString
  | [e] => e
  | e :: rest => e +:+ sep +:+ Join rest sep
  end.

(** [strings.Replace(s, old, new, 1)] for a non-empty [old]: the first
    occurrence of [old] is replaced. *)
Fixpoint Replace1 (s old new : string) : string :=
  if HasPrefix s old
  then new +:+ String.substring (String.length old)
                 (String.length s - String.length old) s
  else match s with
       | EmptyString => EmptyString
       | String c r => String c (Replace1 r old new)
       end.

(** [strings.IndexByte(s, c) >= 0] *)
Fixpoint ContainsByte (s : string) (c : ascii) : bool :=
  match s with
  | EmptyString => false
  | String d r => bool_decide (d = c) || ContainsByte r c
  end.

(** A byte string given by its byte values. *)
Definition bytes (l : list nat) : string :=
  String.string_of_list_ascii (map ascii_of_nat l).

(** The UTF-8 encodings of the code points [unicode.IsSpace] accepts: the
    ASCII white space ['\t'], ['\n'], ['\v'], ['\f'], ['\r'] and [' '],
    then U+0085, U+00A0, U+1680, U+2000 to U+200A, U+2028, U+2029, U+202F,
    U+205F and U+3000. *)
Definition space_runes : list string :=
  map (fun n => bytes [n]) [9; 10; 11; 12; 13; 32] ++
  [bytes [194; 133]; bytes [194; 160]; bytes [225; 154; 128]] ++
  map (fun n => bytes [226; 128; n]) [128; 129; 130; 131; 132; 133; 134; 135; 136; 137; 138] ++
  [bytes [226; 128; 168]; bytes [226; 128; 169]; bytes [226; 128; 175];
   bytes [226; 129; 159]; bytes [227; 128; 128]].

(** [strings.TrimLeftFunc(s, unicode.IsSpace)]: the rune decoded at the
    front is white space exactly when the bytes there are one of
    [space_runes] (a lone or ill-formed byte decodes as [utf8.RuneError],
    which is not white space); strip such runes one by one. *)
Fixpoint trim_left_fuel (fuel : nat) (s : string) : string :=
  match fuel with
  | O => s
  | S f =>
      match list_find (fun e => HasPrefix s e = true) space_runes with
      | Some (_, e) => trim_left_fuel f (TrimPrefix s e)
      | None => s
      end
  end.

Definition trim_left (s : string) : string := trim_left_fuel (String.length s) s.

(** [strings.TrimRightFunc(s, unicode.IsSpace)]: [utf8.DecodeLastRuneInString]
    yields a white space rune exactly when the last bytes are one of
    [space_runes]. *)
Fixpoint trim_right_fuel (fuel : nat) (s : string) : string :=
  match fuel with
  | O => s
  | S f =>
      match list_find (fun e => HasSuffix s e = true) space_runes with
      | Some (_, e) => trim_right_fuel f (TrimSuffix s e)
      | None => s
      end
  end.

Definition trim_right (s : string) : string := trim_right_fuel (String.length s) s.

(** [strings.TrimSpace].  Go skips ASCII white space bytes from the front,
    then from the back, and hands the rest over to
    [TrimFunc(s[start:], unicode.IsSpace)] or
    [TrimRightFunc(s[start:stop], unicode.IsSpace)] at the first byte of
    0x80 or more; both paths remove the white space runes at the front,
    then those at the back. *)
Definition TrimSpace (s : string) : string := trim_right (trim_left s).

End GoStrings.

Import GoStrings.

(* ------------------------------------------------------------------ *)
(** ** Naming policy (types.go) *)

Module Naming.

(** [generateInterfaceName] *)
Definition generateInterfaceName (serviceName : string) : string :=
  serviceName.

(** [generateImplName] *)
Definition generateImplName (serviceName : string) : string :=
  serviceName +:+ "Impl".

(** [generatePrivateFieldName]: both [TrimSuffix] calls run one after the
    other, then the first byte is lower-cased. *)
Definition generatePrivateFieldName (serviceName : string) : string :=
  if String.eqb serviceName "" then "" else
  let name := TrimSuffix serviceName "Service" in
  let name := TrimSuffix name "Client" in
  match name with
  | String c rest => ToLower (String c EmptyString) +:+ rest
  | EmptyString => name
  end.

End Naming.

Import Naming.

(* ------------------------------------------------------------------ *)
(** ** [sort.Slice] *)

Module GoSort.

(** [sort.Slice(x, less)] modelled by a (stable) insertion sort.  Go's
    pattern-defeating quicksort is not stable; the two return the same
    list whenever no two elements compare equal, and both are
    deterministic functions of their input. *)
Fixpoint insert_by {A} (less : A -> A -> bool) (x : A) (l : list A) : list A :=
  match l with
  | [] => [x]
  | y :: r => if less x y then x :: y :: r else y :: insert_by less x r
  end.

Definition sort_slice {A} (less : A -> A -> bool) (l : list A) : list A :=
  foldl (fun acc x => insert_by less x acc) [] l.

(** [sort.Strings] *)
Definition sort_strings (l : list string) : list string :=
  sort_slice String.ltb l.

End GoSort.

Import GoSort.

(* ------------------------------------------------------------------ *)
(** ** Data model (types of the plugin) *)

Module HTTPInfo.
Record t := mk {
  Method : string;            (** "GET", "POST", "PUT", "DELETE", "PATCH" *)
  Path : string;              (** URL path template *)
  PathParams : list string    (** placeholders, left to right *)
}.
End HTTPInfo.

Module Method.
Record t := mk {
  Name : string;
  InputType : string;
  OutputType : string;
  HTTP : option HTTPInfo.t    (** [nil] when absent *)
}.
End Method.

Module Service.
Record t := mk {
  Name : string;
  Package : string;
  GoPackage : string;
  Methods : list Method.t
}.
End Service.

Module ClientConfig.
Record t := mk {
  RootPackage : string;
  OutputSubdir : string;
  ClientName : string;
  GoModulePath : string;
  HTTPClientPkg : string
}.
End ClientConfig.

(** The parts of the protobuf descriptors the plugin reads through
    protoc-gen-star: the [google.api.http] rule of a method's options
    (whose [pattern] oneof is unset or one of get/put/post/delete/patch/
    custom), the methods of a service and the services of a file. *)
Module Proto.

Inductive HttpPattern :=
| Pattern_Get (path : string)
| Pattern_Put (path : string)
| Pattern_Post (path : string)
| Pattern_Delete (path : string)
| Pattern_Patch (path : string)
| Pattern_Custom (kind path : string).

Record HttpRule := mkHttpRule { GetPattern : option HttpPattern }.

(** Method options; [http] is the [google.api.http] extension, [None]
    when [proto.HasExtension] is false. *)
Record MethodOptions := mkMethodOptions { http : option HttpRule }.

Record MethodDesc := mkMethodDesc {
  md_Name : string;
  md_Input : string;
  md_Output : string;
  md_Options : option MethodOptions   (** [GetOptions()] is [nil] when absent *)
}.

Record ServiceDesc := mkServiceDesc {
  sd_Name : string;
  sd_Methods : list MethodDesc
}.

(** A target file: its name, its proto package, [InputPath().Base()] and
    its services. *)
Record File := mkFile {
  file_Name : string;
  file_Package : string;
  file_InputBase : string;
  file_Services : list ServiceDesc
}.

End Proto.

Import Proto.

(* ------------------------------------------------------------------ *)
(** ** Configuration (config.go) *)

Module Config.

(** [strings.SplitN(s, sep, 2)] for a one-byte separator. *)
Fixpoint split_first (s : string) (sep : ascii) : option (string * string) :=
  match s with
  | EmptyString => None
  | String c r =>
      if bool_decide (c = sep) then Some (EmptyString, r)
      else match split_first r sep with
           | Some (a, b) => Some (String c a, b)
           | None => None
           end
  end.

Definition SplitN2 (s : string) (sep : ascii) : list string :=
  match split_first s sep with
  | None => [s]
  | Some (a, b) => [a; b]
  end.

(** [parseClientConfig]: [client] is [params.Str("client")] and
    [go_module_path] is [params.Str("go_module_path")] (both [""] when
    the parameter is not given). *)
Definition parseClientConfig (client go_module_path : string)
  : outcome ClientConfig.t :=
  if String.eqb client "" then
    Err "no client configuration specified (use: client=package:subdir)"
  else
  match SplitN2 client ":"%char with
  | [part0; part1] =>
      let rootPackage := TrimSpace part0 in
      let outputSubdir := TrimSpace part1 in
      let packageParts := Split rootPackage "."%char in
      match last packageParts with
      | None => Panic
      | Some lastPart =>
          first <- slice_to1 lastPart ;;
          let clientName := ToUpper first +:+ slice_from1 lastPart +:+ "Client" in
          let goModulePath :=
            if String.eqb go_module_path "" then "github.com/getfrontierhq/schema/pkg/go"
            else go_module_path in
          let httpClientPkg := goModulePath +:+ "/" +:+ outputSubdir +:+ "/http" in
          Ok (ClientConfig.mk rootPackage outputSubdir clientName goModulePath httpClientPkg)
      end
  | _ => Err ("invalid client format: " +:+ client +:+ " (expected: package:subdir)")
  end.

End Config.

Import Config.

(* ------------------------------------------------------------------ *)
(** ** Binding extraction ([extractHTTPInfo], [extractPathParams]) *)

Module Extract.

(** The matches of the regular expression [\{([^}]+)\}] found by
    [FindAllStringSubmatch(path, -1)], as the sequence of bytes outside a
    match ([Lit]) and matches ([Slot] with the submatch).  A ['{'] starts a
    match iff a ['}'] follows it after at least one other byte; the match
    ends at that first ['}'] and scanning resumes after it. *)
Inductive Seg := Lit (c : ascii) | Slot (name : string).

Fixpoint scan (s : string) : list Seg :=
  match s with
  | EmptyString => []
  | String c r =>
      if bool_decide (c = "{"%char) then scan_open EmptyString r
      else Lit c :: scan r
  end
with scan_open (acc : string) (r : string) : list Seg :=
  match r with
  | EmptyString => Lit "{"%char :: map Lit (String.list_ascii_of_string acc)
  | String c r' =>
      if bool_decide (c = "}"%char) then
        if String.eqb acc "" then Lit "{"%char :: Lit "}"%char :: scan r'
        else Slot acc :: scan r'
      else scan_open (acc +:+ String c EmptyString) r'
  end.

Definition slots (l : list Seg) : list string :=
  omap (fun sg => match sg with Slot p => Some p | Lit _ => None end) l.

(** [extractPathParams] *)
Definition extractPathParams (path : string) : list string :=
  slots (scan path).

(** [extractHTTPInfo]; the ["invalid http rule type"] branch is omitted:
    [GetExtension] of [E_Http] always has type [*HttpRule]. *)
Definition extractHTTPInfo (method : MethodDesc) : outcome HTTPInfo.t :=
  match md_Options method with
  | None => Err "no options"
  | Some opts =>
      match http opts with
      | None => Err "no http annotation"
      | Some httpRule =>
          let verb_path :=
            match GetPattern httpRule with
            | Some (Pattern_Get p) => Some ("GET", p)
            | Some (Pattern_Post p) => Some ("POST", p)
            | Some (Pattern_Put p) => Some ("PUT", p)
            | Some (Pattern_Delete p) => Some ("DELETE", p)
            | Some (Pattern_Patch p) => Some ("PATCH", p)
            | _ => None
            end in
          match verb_path with
          | None => Err "unsupported HTTP method pattern"
          | Some (verb, path) =>
              Ok (HTTPInfo.mk verb path (extractPathParams path))
          end
      end
  end.

(** [snakeToPascal] *)
Definition snakeToPascal (s : string) : string :=
  let parts := Split s "_"%char in
  let parts := map (fun part =>
                 match part with
                 | EmptyString => part
                 | String c rest => ToUpper c +:+ rest
                 end) parts in
  Join parts "".

End Extract.

Import Extract.

(* ------------------------------------------------------------------ *)
(** ** Path construction ([buildPathConstruction]) *)

Module PathBuild.

(** [buildPathConstruction] *)
Definition buildPathConstruction (path : string) (params : list string) : string :=
  let template := foldl (fun t param => Replace1 t ("{" +:+ param +:+ "}") "%s")
                    path params in
  let args := map (fun param => "req." +:+ snakeToPascal param) params in
  "fmt.Sprintf(" +:+ dq +:+ template +:+ dq +:+ ", " +:+ Join args ", " +:+ ")".

(** The interpolation plan as the spec describes it: every placeholder
    of the template becomes its own slot ["%s"], left to right, and the
    slots are bound, in that order, to the PascalCase field names. *)
Fixpoint plan_template (l : list Seg) : string :=
  match l with
  | [] => EmptyString
  | Lit c :: r => String c (plan_template r)
  | Slot _ :: r => "%s" +:+ plan_template r
  end.

Definition plan_args (l : list Seg) : list string :=
  map (fun p => "req." +:+ snakeToPascal p) (slots l).

Definition compilePath_spec (path : string) : string :=
  "fmt.Sprintf(" +:+ dq +:+ plan_template (scan path) +:+ dq +:+ ", "
  +:+ Join (plan_args (scan path)) ", " +:+ ")".

(** Auxiliary readings of a scanned template used in the proofs: a
    well-formed segment list (what [scan] produces), and the template with
    its first [n] placeholders already replaced by ["%s"]. *)
Definition no_close (l : list Seg) : Prop :=
  Forall (fun sg => exists c, sg = Lit c /\ c <> "}"%char) l.

Fixpoint wf_segs (l : list Seg) : Prop :=
  match l with
  | [] => True
  | Lit c :: r =>
      (c = "{"%char -> head r = Some (Lit "}"%char) \/ no_close r) /\ wf_segs r
  | Slot p :: r => p <> "" /\ ContainsByte p "}"%char = false /\ wf_segs r
  end.

Fixpoint render_mixed (n : nat) (l : list Seg) : string :=
  match l with
  | [] => EmptyString
  | Lit c :: r => String c (render_mixed n r)
  | Slot p :: r =>
      match n with
      | O => "{" +:+ p +:+ "}" +:+ render_mixed O r
      | S n' => "%s" +:+ render_mixed n' r
      end
  end.

End PathBuild.

Import PathBuild.

(* ------------------------------------------------------------------ *)
(** ** Schema collection ([extractServices], config.go) *)

Module Collect.

Definition method_less (a b : Method.t) : bool :=
  String.ltb (Method.Name a) (Method.Name b).

Definition service_less (a b : Service.t) : bool :=
  if String.eqb (Service.Package a) (Service.Package b)
  then String.ltb (Service.Name a) (Service.Name b)
  else String.ltb (Service.Package a) (Service.Package b).

(** One method as [extractServices] records it: the HTTP info is kept
    only when [extractHTTPInfo] returns no error. *)
Definition collectMethod (method : MethodDesc) : Method.t :=
  Method.mk (md_Name method) (md_Input method) (md_Output method)
    (match extractHTTPInfo method with
     | Ok httpInfo => Some httpInfo
     | _ => None
     end).

Definition collectService (file : File) (svc : ServiceDesc) : Service.t :=
  Service.mk (sd_Name svc) (file_Package file) (file_InputBase file)
    (sort_slice method_less (map collectMethod (sd_Methods svc))).

(** [extractServices] *)
Definition extractServices (files : list File) (rootPackage : string)
  : list Service.t :=
  let services :=
    foldl (fun services file =>
             if negb (HasPrefix (file_Package file) rootPackage) then services
             else services ++ map (collectService file) (file_Services file))
          [] files in
  sort_slice service_less services.

End Collect.

Import Collect.

(* ------------------------------------------------------------------ *)
(** ** Grouping ([groupServices], main.go) *)

Module Group.

(** The body of the loop of [groupServices]; [nested[category]] of Go is
    [[]] on a missing key, and indexing [parts[categoryIndex]] out of range
    would panic. *)
Definition groupStep (rootPkg : string)
  (acc : outcome (list Service.t * gmap string (list Service.t))) (svc : Service.t)
  : outcome (list Service.t * gmap string (list Service.t)) :=
  r <- acc ;;
  let '(topLevel, nested) := r in
  if String.eqb (Service.Package svc) rootPkg
  then Ok (topLevel ++ [svc], nested)
  else
    let parts := Split (Service.Package svc) "."%char in
    if (length (Split rootPkg "."%char) <? length parts)%nat then
      let categoryIndex := length (Split rootPkg "."%char) in
      match parts !! categoryIndex with
      | None => Panic
      | Some category =>
          Ok (topLevel,
              <[category := default [] (nested !! category) ++ [svc]]> nested)
      end
    else Ok (topLevel, nested).

(** [groupServices] *)
Definition groupServices (services : list Service.t) (rootPkg : string)
  : outcome (list Service.t * gmap string (list Service.t)) :=
  foldl (groupStep rootPkg) (Ok ([], ∅)) services.

End Group.

Import Group.

(* ------------------------------------------------------------------ *)
(** ** Template data and the three text templates *)

Module Templates.

Record MethodTemplateData := mkMethodTemplateData {
  mt_Name : string;
  mt_InputType : string;
  mt_OutputType : string;
  mt_HTTP : HTTPInfo.t;           (** a non-nil [*HTTPInfo] *)
  mt_PathConstruction : string
}.

Record ServiceTemplateData := mkServiceTemplateData {
  st_ServiceName : string;
  st_ImportSuffix : string;
  st_HasFmt : bool;
  st_Methods : list MethodTemplateData;
  st_HTTPClientPkg : string;
  st_ProtoPackage : string;
  st_InterfaceName : string;
  st_ImplName : string;
  st_PrivateField : string
}.

Record NestedServicesTemplateData := mkNestedServicesTemplateData {
  nt_Category : string;
  nt_CategoryLower : string;
  nt_ImportSuffix : string;
  nt_HasFmt : bool;
  nt_Services : list ServiceTemplateData;
  nt_HTTPClientPkg : string;
  nt_ProtoPackage : string;
  nt_InterfaceName : string;
  nt_ImplName : string;
  nt_PrivateField : string
}.

Record ServiceInfo := mkServiceInfo {
  si_FieldName : string;
  si_TypeName : string;
  si_ImplName : string;
  si_InterfaceName : string;
  si_PrivateField : string
}.

Record NestedClientInfo := mkNestedClientInfo {
  nc_FieldName : string;
  nc_TypeName : string;
  nc_ImplName : string;
  nc_InterfaceName : string;
  nc_PrivateField : string;
  nc_Services : list ServiceInfo
}.

Record RootClientTemplateData := mkRootClientTemplateData {
  rt_ClientName : string;
  rt_HTTPClientPkg : string;
  rt_InterfaceName : string;
  rt_ImplName : string;
  rt_TopLevelServices : list ServiceInfo;
  rt_NestedClients : list NestedClientInfo
}.

Definition concat_map {A} (f : A -> string) (l : list A) : string :=
  foldr (fun x acc => f x +:+ acc) EmptyString l.

(** Header shared by [serviceFileTemplate] and [nestedServicesFileTemplate]. *)
Definition render_imports (hasFmt : bool) (httpPkg protoPkg : string) : string :=
  "package client" +:+ nl +:+ nl +:+ "import (" +:+ nl
  +:+ tab +:+ dq +:+ "context" +:+ dq +:+ nl
  +:+ tab +:+ (if hasFmt then dq +:+ "fmt" +:+ dq +:+ nl +:+ tab else "")
  +:+ nl
  +:+ tab +:+ dq +:+ httpPkg +:+ dq +:+ nl
  +:+ tab +:+ "pb " +:+ dq +:+ protoPkg +:+ dq +:+ nl
  +:+ ")" +:+ nl +:+ nl.

(** One interface method line: [{{range .Methods}}] of the interface. *)
Definition render_method_sig (m : MethodTemplateData) : string :=
  tab +:+ "// " +:+ mt_Name m +:+ " makes a " +:+ HTTPInfo.Method (mt_HTTP m)
  +:+ " request to " +:+ HTTPInfo.Path (mt_HTTP m) +:+ nl
  +:+ tab +:+ mt_Name m +:+ "(ctx context.Context, req *pb." +:+ mt_InputType m
  +:+ ") (*pb." +:+ mt_OutputType m +:+ ", error)" +:+ nl.

(** [{{if .PathConstruction}}path := ...{{else}}path := "..."{{end}}] *)
Definition render_path (m : MethodTemplateData) : string :=
  if String.eqb (mt_PathConstruction m) ""
  then "path := " +:+ dq +:+ HTTPInfo.Path (mt_HTTP m) +:+ dq +:+ nl +:+ tab
  else "path := " +:+ mt_PathConstruction m +:+ nl +:+ tab.

(** [{{if eq .HTTP.Method "POST"}}...Post...{{else}}...Get...{{end}}]: the
    single verb dispatch of a generated method. *)
Definition render_dispatch (m : MethodTemplateData) : string :=
  if String.eqb (HTTPInfo.Method (mt_HTTP m)) "POST"
  then "err := s.client.Post(ctx, path, req, resp)" +:+ nl +:+ tab
  else "err := s.client.Get(ctx, path, resp)" +:+ nl +:+ tab.

(** One implementation method: [{{range .Methods}}] of the implementation. *)
Definition render_method_impl (implName : string) (m : MethodTemplateData) : string :=
  nl +:+ "// " +:+ mt_Name m +:+ " makes a " +:+ HTTPInfo.Method (mt_HTTP m)
  +:+ " request to " +:+ HTTPInfo.Path (mt_HTTP m) +:+ nl
  +:+ "func (s *" +:+ implName +:+ ") " +:+ mt_Name m
  +:+ "(ctx context.Context, req *pb." +:+ mt_InputType m +:+ ") (*pb."
  +:+ mt_OutputType m +:+ ", error) {" +:+ nl
  +:+ tab +:+ "resp := &pb." +:+ mt_OutputType m +:+ "{}" +:+ nl
  +:+ tab +:+ render_path m +:+ render_dispatch m
  +:+ "return resp, err" +:+ nl +:+ "}" +:+ nl.

(** [serviceFileTemplate] executed on [d]. *)
Definition serviceFileTemplate (d : ServiceTemplateData) : string :=
  render_imports (st_HasFmt d) (st_HTTPClientPkg d) (st_ProtoPackage d)
  +:+ "// " +:+ st_InterfaceName d +:+ " defines the interface for "
  +:+ st_ServiceName d +:+ nl
  +:+ "type " +:+ st_InterfaceName d +:+ " interface {" +:+ nl
  +:+ concat_map render_method_sig (st_Methods d)
  +:+ "}" +:+ nl +:+ nl
  +:+ "// " +:+ st_ImplName d +:+ " provides " +:+ st_ServiceName d
  +:+ " operations" +:+ nl
  +:+ "type " +:+ st_ImplName d +:+ " struct {" +:+ nl
  +:+ tab +:+ st_InterfaceName d +:+ nl
  +:+ tab +:+ "client *http.HTTPClient" +:+ nl
  +:+ "}" +:+ nl +:+ nl
  +:+ concat_map (render_method_impl (st_ImplName d)) (st_Methods d).

(** [nestedServicesFileTemplate] executed on [d]. *)
Definition nestedServicesFileTemplate (d : NestedServicesTemplateData) : string :=
  render_imports (nt_HasFmt d) (nt_HTTPClientPkg d) (nt_ProtoPackage d)
  +:+ "// " +:+ nt_InterfaceName d +:+ " defines the interface for "
  +:+ nt_Category d +:+ " services" +:+ nl
  +:+ "type " +:+ nt_InterfaceName d +:+ " interface {" +:+ nl
  +:+ concat_map (fun s => tab +:+ "Get" +:+ st_ServiceName s +:+ "() "
                           +:+ st_InterfaceName s +:+ nl) (nt_Services d)
  +:+ "}" +:+ nl +:+ nl
  +:+ "// " +:+ nt_ImplName d +:+ " groups " +:+ nt_CategoryLower d
  +:+ " services" +:+ nl
  +:+ "type " +:+ nt_ImplName d +:+ " struct {" +:+ nl
  +:+ tab +:+ nt_InterfaceName d +:+ nl
  +:+ concat_map (fun s => tab +:+ st_PrivateField s +:+ " *" +:+ st_ImplName s
                           +:+ nl) (nt_Services d)
  +:+ "}" +:+ nl +:+ nl
  +:+ concat_map (fun s =>
        nl +:+ "// Get" +:+ st_ServiceName s +:+ " returns the "
        +:+ st_ServiceName s +:+ nl
        +:+ "func (c *" +:+ nt_ImplName d +:+ ") Get" +:+ st_ServiceName s
        +:+ "() " +:+ st_InterfaceName s +:+ " {" +:+ nl
        +:+ tab +:+ "return c." +:+ st_PrivateField s +:+ nl
        +:+ "}" +:+ nl) (nt_Services d)
  +:+ nl +:+ nl
  +:+ concat_map (fun svc =>
        nl +:+ "// " +:+ st_InterfaceName svc +:+ " defines the interface for "
        +:+ st_ServiceName svc +:+ nl
        +:+ "type " +:+ st_InterfaceName svc +:+ " interface {" +:+ nl
        +:+ concat_map render_method_sig (st_Methods svc)
        +:+ "}" +:+ nl +:+ nl
        +:+ "// " +:+ st_ImplName svc +:+ " provides " +:+ st_ServiceName svc
        +:+ " operations" +:+ nl
        +:+ "type " +:+ st_ImplName svc +:+ " struct {" +:+ nl
        +:+ tab +:+ st_InterfaceName svc +:+ nl
        +:+ tab +:+ "client *http.HTTPClient" +:+ nl
        +:+ "}" +:+ nl +:+ nl
        +:+ concat_map (render_method_impl (st_ImplName svc)) (st_Methods svc)
        +:+ nl) (nt_Services d).

Definition render_getter (implName fieldName typeName interfaceName privateField : string)
  : string :=
  nl +:+ "// Get" +:+ fieldName +:+ " returns the " +:+ typeName +:+ nl
  +:+ "func (c *" +:+ implName +:+ ") Get" +:+ fieldName +:+ "() "
  +:+ interfaceName +:+ " {" +:+ nl
  +:+ tab +:+ "return c." +:+ privateField +:+ nl
  +:+ "}" +:+ nl.

Definition render_service_init (indent : string) (s : ServiceInfo) : string :=
  indent +:+ si_PrivateField s +:+ ": &" +:+ si_ImplName s
  +:+ "{client: httpClient}," +:+ nl.

(** [rootClientTemplate] executed on [d]. *)
Definition rootClientTemplate (d : RootClientTemplateData) : string :=
  "package client" +:+ nl +:+ nl +:+ "import (" +:+ nl
  +:+ tab +:+ dq +:+ "net/http" +:+ dq +:+ nl
  +:+ tab +:+ dq +:+ "time" +:+ dq +:+ nl +:+ nl
  +:+ tab +:+ "httpclient " +:+ dq +:+ rt_HTTPClientPkg d +:+ dq +:+ nl
  +:+ ")" +:+ nl +:+ nl
  +:+ "// " +:+ rt_InterfaceName d
  +:+ " defines the interface for the root HTTP client" +:+ nl
  +:+ "type " +:+ rt_InterfaceName d +:+ " interface {" +:+ nl
  +:+ concat_map (fun s => tab +:+ "Get" +:+ si_FieldName s +:+ "() "
                           +:+ si_InterfaceName s +:+ nl) (rt_TopLevelServices d)
  +:+ concat_map (fun n => tab +:+ "Get" +:+ nc_FieldName n +:+ "() "
                           +:+ nc_InterfaceName n +:+ nl) (rt_NestedClients d)
  +:+ "}" +:+ nl +:+ nl
  +:+ "// " +:+ rt_ImplName d +:+ " is the root HTTP client implementation" +:+ nl
  +:+ "type " +:+ rt_ImplName d +:+ " struct {" +:+ nl
  +:+ tab +:+ rt_InterfaceName d +:+ nl
  +:+ tab +:+ "httpClient *httpclient.HTTPClient" +:+ nl
  +:+ concat_map (fun s => tab +:+ si_PrivateField s +:+ " *" +:+ si_ImplName s
                           +:+ nl) (rt_TopLevelServices d)
  +:+ concat_map (fun n => tab +:+ nc_PrivateField n +:+ " *" +:+ nc_ImplName n
                           +:+ nl) (rt_NestedClients d)
  +:+ "}" +:+ nl +:+ nl
  +:+ concat_map (fun s => render_getter (rt_ImplName d) (si_FieldName s)
                    (si_TypeName s) (si_InterfaceName s) (si_PrivateField s))
       (rt_TopLevelServices d)
  +:+ nl
  +:+ concat_map (fun n => render_getter (rt_ImplName d) (nc_FieldName n)
                    (nc_TypeName n) (nc_InterfaceName n) (nc_PrivateField n))
       (rt_NestedClients d)
  +:+ nl +:+ nl
  +:+ "// New" +:+ rt_ClientName d +:+ " creates a new HTTP client" +:+ nl
  +:+ "//" +:+ nl
  +:+ "// Parameters:" +:+ nl
  +:+ "//   - baseURL: API base URL (e.g., " +:+ dq
  +:+ "https://data.sandbox.iniciador.com.br" +:+ dq +:+ ")" +:+ nl
  +:+ "//   - token: Bearer token (empty string for unauthenticated client)" +:+ nl
  +:+ "//" +:+ nl
  +:+ "// The client is immutable - to change the token, create a new client instance."
  +:+ nl
  +:+ "func New" +:+ rt_ClientName d +:+ "(baseURL, token string) *"
  +:+ rt_ImplName d +:+ " {" +:+ nl
  +:+ tab +:+ "httpClient := &httpclient.HTTPClient{" +:+ nl
  +:+ tab +:+ tab +:+ "BaseURL:    baseURL," +:+ nl
  +:+ tab +:+ tab +:+ "HTTPClient: &http.Client{Timeout: 30 * time.Second}," +:+ nl
  +:+ tab +:+ tab +:+ "Token:      token," +:+ nl
  +:+ tab +:+ "}" +:+ nl +:+ nl
  +:+ tab +:+ "return &" +:+ rt_ImplName d +:+ "{" +:+ nl
  +:+ tab +:+ tab +:+ "httpClient: httpClient," +:+ nl
  +:+ concat_map (render_service_init (tab +:+ tab)) (rt_TopLevelServices d)
  +:+ concat_map (fun n =>
        tab +:+ tab +:+ nc_PrivateField n +:+ ": &" +:+ nc_ImplName n +:+ "{" +:+ nl
        +:+ concat_map (render_service_init (tab +:+ tab +:+ tab)) (nc_Services n)
        +:+ tab +:+ tab +:+ "}," +:+ nl) (rt_NestedClients d)
  +:+ tab +:+ "}" +:+ nl +:+ "}" +:+ nl.

End Templates.

Import Templates.

(* ------------------------------------------------------------------ *)
(** ** Code generation (the service, nested and root-client generators) *)

Module Generate.

(** [strings.Replace(s, ".", "/", -1)] *)
Definition dots_to_slashes (s : string) : string :=
  map_chars (fun c => if bool_decide (c = "."%char) then "/"%char else c) s.

(** [computeImportSuffix] *)
Definition computeImportSuffix (pkg rootPkg : string) : string :=
  if String.eqb pkg rootPkg then "" else
  if negb (HasPrefix pkg (rootPkg +:+ ".")) then "" else
  let suffix := TrimPrefix pkg (rootPkg +:+ ".") in
  "/" +:+ dots_to_slashes suffix.

(** The body of the method loop shared by [generateService] and
    [generateNestedServices]: a method without HTTP info is skipped. *)
Definition methodTemplateData (m : Method.t) : option MethodTemplateData :=
  match Method.HTTP m with
  | None => None
  | Some h =>
      Some (mkMethodTemplateData (Method.Name m) (Method.InputType m)
              (Method.OutputType m) h
              (match HTTPInfo.PathParams h with
               | [] => ""
               | _ => buildPathConstruction (HTTPInfo.Path h) (HTTPInfo.PathParams h)
               end))
  end.

(** [data.HasFmt] after the loop: some HTTP method has path parameters. *)
Definition needsFmt (ms : list Method.t) : bool :=
  existsb (fun m => match Method.HTTP m with
                    | Some h => negb (bool_decide (HTTPInfo.PathParams h = []))
                    | None => false
                    end) ms.

(** [generateService].  Parsing the constant template and executing it on
    this data cannot fail, so the error results are never produced. *)
Definition generateService (svc : Service.t) (cfg : ClientConfig.t)
  : outcome string :=
  let importSuffix := computeImportSuffix (Service.Package svc)
                        (ClientConfig.RootPackage cfg) in
  let protoPackage := ClientConfig.GoModulePath cfg +:+ "/"
                      +:+ dots_to_slashes (ClientConfig.RootPackage cfg)
                      +:+ importSuffix in
  let data := mkServiceTemplateData (Service.Name svc) importSuffix
                (needsFmt (Service.Methods svc))
                (omap methodTemplateData (Service.Methods svc))
                (ClientConfig.HTTPClientPkg cfg) protoPackage
                (generateInterfaceName (Service.Name svc))
                (generateImplName (Service.Name svc))
                (generatePrivateFieldName (Service.Name svc)) in
  Ok (serviceFileTemplate data).

(** [strings.ToUpper(s[:1]) + s[1:]] *)
Definition capitalize (s : string) : outcome string :=
  first <- slice_to1 s ;;
  Ok (ToUpper first +:+ slice_from1 s).

(** [generateNestedServices] *)
Definition generateNestedServices (category : string) (services : list Service.t)
  (cfg : ClientConfig.t) : outcome string :=
  categoryCapitalized <- capitalize category ;;
  let importSuffix := "/" +:+ category in
  let protoPackage := ClientConfig.GoModulePath cfg +:+ "/"
                      +:+ dots_to_slashes (ClientConfig.RootPackage cfg)
                      +:+ importSuffix in
  let serviceData (svc : Service.t) : ServiceTemplateData :=
    mkServiceTemplateData (Service.Name svc) "" false
      (omap methodTemplateData (Service.Methods svc)) "" ""
      (generateInterfaceName (Service.Name svc))
      (generateImplName (Service.Name svc))
      (generatePrivateFieldName (Service.Name svc)) in
  let data := mkNestedServicesTemplateData categoryCapitalized category
                importSuffix
                (existsb (fun svc => needsFmt (Service.Methods svc)) services)
                (map serviceData services)
                (ClientConfig.HTTPClientPkg cfg) protoPackage
                (generateInterfaceName (categoryCapitalized +:+ "Client"))
                (generateImplName (categoryCapitalized +:+ "Client"))
                (generatePrivateFieldName (categoryCapitalized +:+ "Client")) in
  Ok (nestedServicesFileTemplate data).

Definition name_less (a b : Service.t) : bool :=
  String.ltb (Service.Name a) (Service.Name b).

Fixpoint mapM {A B} (f : A -> outcome B) (l : list A) : outcome (list B) :=
  match l with
  | [] => Ok []
  | x :: r => y <- f x ;; ys <- mapM f r ;; Ok (y :: ys)
  end.

(** [generateRootClient]; [categories] is the order in which its
    [for category := range nested] loop visits the keys of [nested]. *)
Definition generateRootClient (clientName : string) (topLevel : list Service.t)
  (nested : gmap string (list Service.t)) (categories : list string)
  (cfg : ClientConfig.t) : outcome string :=
  let topInfo (svc : Service.t) : ServiceInfo :=
    mkServiceInfo (TrimSuffix (Service.Name svc) "Service") (Service.Name svc)
      (generateImplName (Service.Name svc)) (generateInterfaceName (Service.Name svc))
      (generatePrivateFieldName (Service.Name svc)) in
  let nestedInfo (svc : Service.t) : ServiceInfo :=
    mkServiceInfo (Service.Name svc) (Service.Name svc)
      (generateImplName (Service.Name svc)) (generateInterfaceName (Service.Name svc))
      (generatePrivateFieldName (Service.Name svc)) in
  nestedClients <- mapM (fun category =>
      let services := sort_slice name_less (default [] (nested !! category)) in
      categoryCapitalized <- capitalize category ;;
      Ok (mkNestedClientInfo categoryCapitalized (categoryCapitalized +:+ "Client")
            (generateImplName (categoryCapitalized +:+ "Client"))
            (generateInterfaceName (categoryCapitalized +:+ "Client"))
            (generatePrivateFieldName (categoryCapitalized +:+ "Client"))
            (map nestedInfo services)))
    (sort_strings categories) ;;
  Ok (rootClientTemplate
        (mkRootClientTemplateData clientName (ClientConfig.HTTPClientPkg cfg)
           (generateInterfaceName clientName) (generateImplName clientName)
           (map topInfo topLevel) nestedClients)).

End Generate.

Import Generate.

(* ------------------------------------------------------------------ *)
(** ** The plugin run ([Execute], main.go) *)

Module Plugin.

(** [path.Clean] (slash-separated paths). *)
Definition Clean (path : string) : string :=
  let rooted := HasPrefix path "/" in
  let stack :=
    foldl (fun st e =>
             if String.eqb e "" || String.eqb e "." then st
             else if String.eqb e ".." then
               match st with
               | x :: r => if String.eqb x ".." then ".." :: st else r
               | [] => if rooted then [] else [".."]
               end
             else e :: st) [] (Split path "/"%char) in
  let body := Join (rev stack) "/" in
  if rooted then "/" +:+ body
  else if String.eqb body "" then "." else body.

(** [filepath.Join] on a Unix system: the elements from the first
    non-empty one on are joined with ["/"] and cleaned. *)
Fixpoint PathJoin (elems : list string) : string :=
  match elems with
  | [] => ""
  | e :: rest => if String.eqb e "" then PathJoin rest else Clean (Join elems "/")
  end.

(** An artifact added with [AddGeneratorFile(name, content)]. *)
Definition Artifact : Type := string * string.

(** Go's [for k := range m] visits the keys of a map in an order chosen
    anew by the runtime.  A run of [Execute] is described by the orders
    its three map loops take: over [targets], over [nested] in [Execute]
    and over [nested] in [generateRootClient]. *)
Record MapOrder := mkMapOrder {
  range_targets : gmap string File -> list File;
  range_nested : gmap string (list Service.t) -> list string;
  range_nested_root : gmap string (list Service.t) -> list string
}.

(** The orders a Go run can take: each loop visits every entry exactly once. *)
Definition valid_order (o : MapOrder) : Prop :=
  (forall m, range_targets o m ≡ₚ (map_to_list m).*2) /\
  (forall m, range_nested o m ≡ₚ (map_to_list m).*1) /\
  (forall m, range_nested_root o m ≡ₚ (map_to_list m).*1).

(** The artifacts of one generator loop; a generator error is logged and
    the file skipped ([continue]), a panic aborts the run. *)
Fixpoint keep_generated (l : list (outcome Artifact)) : outcome (list Artifact) :=
  match l with
  | [] => Ok []
  | Ok a :: r => rest <- keep_generated r ;; Ok (a :: rest)
  | Err _ :: r => keep_generated r
  | Panic :: r => Panic
  end.

Definition file_less (a b : File) : bool := String.ltb (file_Name a) (file_Name b).

Section Execute.

(** The constant [httpClientBaseCode], copied verbatim to the output. *)
Variable httpClientBaseCode : string.

(** [Execute]; [client] and [go_module_path] are the plugin parameters.
    A configuration error is reported with [m.Fail], which ends the run. *)
Definition Execute (o : MapOrder) (client go_module_path : string)
  (targets : gmap string File) : outcome (list Artifact) :=
  cfg <- parseClientConfig client go_module_path ;;
  let files := sort_slice file_less (range_targets o targets) in
  let services := extractServices files (ClientConfig.RootPackage cfg) in
  let httpClientPath := PathJoin [ClientConfig.OutputSubdir cfg; "http"; "client.gen.go"] in
  grouped <- groupServices services (ClientConfig.RootPackage cfg) ;;
  let '(topLevel, nested) := grouped in
  let topLevel := sort_slice name_less topLevel in
  topArts <- keep_generated
    (map (fun svc =>
            code <- generateService svc cfg ;;
            let serviceName := ToLower (TrimSuffix (Service.Name svc) "Service") in
            Ok (PathJoin [ClientConfig.OutputSubdir cfg; serviceName +:+ ".gen.go"], code))
         topLevel) ;;
  let categories := sort_strings (range_nested o nested) in
  (* [sort.Slice(categoryServices, ...)] sorts the slice stored in [nested]. *)
  let nested := foldl (fun m category =>
                         <[category := sort_slice name_less (default [] (m !! category))]> m)
                      nested categories in
  nestedArts <- keep_generated
    (map (fun category =>
            let categoryServices := default [] (nested !! category) in
            code <- generateNestedServices category categoryServices cfg ;;
            Ok (PathJoin [ClientConfig.OutputSubdir cfg; ToLower category +:+ ".gen.go"], code))
         categories) ;;
  rootArts <- keep_generated
    [clientCode <- generateRootClient (ClientConfig.ClientName cfg) topLevel nested
                     (range_nested_root o nested) cfg ;;
     Ok (PathJoin [ClientConfig.OutputSubdir cfg; "client.gen.go"], clientCode)] ;;
  Ok ([(httpClientPath, httpClientBaseCode)] ++ topArts ++ nestedArts ++ rootArts).

End Execute.

End Plugin.

Import Plugin.

(* ------------------------------------------------------------------ *)
(** ** Readings of the spec, used to state the properties *)

Module SpecSide.

(** Lower-case the first byte of a name (the last step of the naming policy). *)
Definition lower_first (s : string) : string :=
  match s with
  | EmptyString => EmptyString
  | String c r => String (lower_char c) r
  end.

(** The namespace segment at index [len(split(rootNamespace))] of the
    split namespace [pkg], if there is one. *)
Definition next_segment (rootPkg pkg : string) : option string :=
  Split pkg "."%char !! length (Split rootPkg "."%char).

(** The transport line a generated method calls. *)
Definition get_call : string := "err := s.client.Get(ctx, path, resp)" +:+ nl +:+ tab.
Definition post_call : string := "err := s.client.Post(ctx, path, req, resp)" +:+ nl +:+ tab.

End SpecSide.

Import SpecSide.

(* ------------------------------------------------------------------ *)
(** ** Concrete inputs *)

Module Samples.

Definition rule (p : option HttpPattern) : option MethodOptions :=
  Some (mkMethodOptions (Some (mkHttpRule p))).

Definition getAccount : MethodDesc :=
  mkMethodDesc "GetAccount" "GetAccountRequest" "GetAccountResponse"
    (rule (Some (Pattern_Get "/v1/accounts/{id}"))).
Definition updateAccount : MethodDesc :=
  mkMethodDesc "UpdateAccount" "UpdateAccountRequest" "UpdateAccountResponse"
    (rule (Some (Pattern_Put "/v1/accounts/{id}"))).
Definition listTitles : MethodDesc :=
  mkMethodDesc "ListTitles" "ListTitlesRequest" "ListTitlesResponse"
    (rule (Some (Pattern_Post "/v1/investments"))).
(** An annotation whose pattern sets no verb, and the same method with no
    annotation at all. *)
Definition badPattern : MethodDesc :=
  mkMethodDesc "Ping" "PingRequest" "PingResponse" (rule None).
Definition noAnnotation : MethodDesc :=
  mkMethodDesc "Ping" "PingRequest" "PingResponse" None.

Definition accountsFile : File :=
  mkFile "root/accounts.proto" "root" "accounts.proto"
    [mkServiceDesc "AccountsService" [getAccount; updateAccount; badPattern]].
Definition titlesFile : File :=
  mkFile "root/investments/titles.proto" "root.investments" "titles.proto"
    [mkServiceDesc "TreasureTitlesService" [listTitles]].
Definition targets : gmap string File :=
  <["root/accounts.proto" := accountsFile]>
    (<["root/investments/titles.proto" := titlesFile]> ∅).

Definition barxFile : File :=
  mkFile "foo/barx/api.proto" "foo.barx" "api.proto"
    [mkServiceDesc "BarxService" [getAccount]].

Definition cfg0 : ClientConfig.t :=
  ClientConfig.mk "root" "client" "RootClient" "github.com/org/repo/pkg/go"
    "github.com/org/repo/pkg/go/client/http".

Definition accountsService : Service.t :=
  collectService accountsFile (mkServiceDesc "AccountsService" [updateAccount]).

Definition deleteAccount : MethodDesc :=
  mkMethodDesc "DeleteAccount" "DeleteAccountRequest" "DeleteAccountResponse"
    (rule (Some (Pattern_Delete "/v1/accounts/{id}"))).
Definition patchAccount : MethodDesc :=
  mkMethodDesc "PatchAccount" "PatchAccountRequest" "PatchAccountResponse"
    (rule (Some (Pattern_Patch "/v1/accounts/{id}"))).

(** A service whose methods are bound to [PUT], [DELETE] and [PATCH]. *)
Definition verbsService : Service.t :=
  collectService accountsFile
    (mkServiceDesc "VerbsService" [updateAccount; deleteAccount; patchAccount]).

(** Two runs: map iteration in key order and in reverse key order. *)
Definition order_fwd : MapOrder :=
  mkMapOrder (fun m => (map_to_list m).*2) (fun m => (map_to_list m).*1)
    (fun m => (map_to_list m).*1).
Definition order_rev : MapOrder :=
  mkMapOrder (fun m => rev (map_to_list m).*2) (fun m => rev (map_to_list m).*1)
    (fun m => rev (map_to_list m).*1).

End Samples.

Import Samples.

(* ================================================================== *)
(** * Properties *)

(* ------------------------------------------------------------------ *)
(** ** Lemmas on strings *)

(** [simpl] may unfold [String.append] in the proofs below. *)
Arguments String.append : simpl nomatch.

Module StringFacts.

Lemma length_app (x y : string) :
  String.length (x +:+ y) = String.length x + String.length y.
Proof. induction x; simpl; auto. Qed.

Lemma app_assoc_s (x y z : string) : (x +:+ y) +:+ z = x +:+ (y +:+ z).
Proof. induction x; simpl; congruence. Qed.

Lemma substring_full (y : string) : String.substring 0 (String.length y) y = y.
Proof. induction y; simpl; congruence. Qed.

Lemma substring_app_l (x y : string) :
  String.substring 0 (String.length x) (x +:+ y) = x.
Proof. induction x; simpl; [destruct y; reflexivity | congruence]. Qed.

Lemma substring_app_r (x y : string) :
  String.substring (String.length x) (String.length y) (x +:+ y) = y.
Proof. induction x; simpl; auto using substring_full. Qed.

Lemma substring_split (s : string) (n : nat) :
  n <= String.length s ->
  String.substring 0 n s +:+ String.substring n (String.length s - n) s = s.
Proof.
  revert n. induction s as [|c s IH]; intros [|n] Hn; simpl in *.
  - reflexivity.
  - lia.
  - f_equal. apply substring_full.
  - f_equal. apply IH. lia.
Qed.

Lemma HasSuffix_spec (s suf : string) :
  HasSuffix s suf = true <-> exists p, s = p +:+ suf.
Proof.
  unfold HasSuffix. split.
  - intros H. apply andb_prop in H as [Hle Heq].
    apply Nat.leb_le in Hle. apply String.eqb_eq in Heq.
    exists (String.substring 0 (String.length s - String.length suf) s).
    assert (Hs := substring_split s (String.length s - String.length suf) ltac:(lia)).
    replace (String.length s - (String.length s - String.length suf))
      with (String.length suf) in Hs by lia.
    rewrite Heq in Hs. exact (eq_sym Hs).
  - intros [p ->]. rewrite length_app.
    replace (String.length p + String.length suf - String.length suf)
      with (String.length p) by lia.
    rewrite substring_app_r, String.eqb_refl, andb_true_r.
    apply Nat.leb_le. lia.
Qed.

Lemma TrimSuffix_app (x suf : string) : TrimSuffix (x +:+ suf) suf = x.
Proof.
  unfold TrimSuffix.
  assert (HasSuffix (x +:+ suf) suf = true) as -> by (apply HasSuffix_spec; eauto).
  rewrite length_app.
  replace (String.length x + String.length suf - String.length suf)
    with (String.length x) by lia.
  apply substring_app_l.
Qed.

Lemma TrimSuffix_no (x suf : string) : HasSuffix x suf = false -> TrimSuffix x suf = x.
Proof. unfold TrimSuffix. intros ->. reflexivity. Qed.

Lemma last_char_app (x y : string) (a b : ascii) :
  x +:+ String a EmptyString = y +:+ String b EmptyString -> a = b.
Proof.
  revert y. induction x as [|c x IH]; intros [|d y] H; simpl in H.
  - congruence.
  - injection H as _ H. destruct y; discriminate.
  - injection H as _ H. destruct x; discriminate.
  - injection H as _ H. eauto.
Qed.

Lemma HasSuffix_Client_Service (x : string) : HasSuffix (x +:+ "Client") "Service" = false.
Proof.
  destruct (HasSuffix (x +:+ "Client") "Service") eqn:E; [|reflexivity].
  apply HasSuffix_spec in E as [p Hp].
  replace (x +:+ "Client") with ((x +:+ "Clien") +:+ "t") in Hp
    by (rewrite app_assoc_s; reflexivity).
  replace (p +:+ "Service") with ((p +:+ "Servic") +:+ "e") in Hp
    by (rewrite app_assoc_s; reflexivity).
  apply last_char_app in Hp. discriminate.
Qed.

Lemma app_nonempty (x suf : string) : suf <> "" -> String.eqb (x +:+ suf) "" = false.
Proof. intros H. apply String.eqb_neq. destruct x, suf; simpl; congruence. Qed.

Lemma lower_first_eq (x : string) :
  match x with
  | String c rest => ToLower (String c EmptyString) +:+ rest
  | EmptyString => x
  end = lower_first x.
Proof. destruct x; reflexivity. Qed.

End StringFacts.

Import StringFacts.

(* ------------------------------------------------------------------ *)
(** ** Naming policy *)

Module NamingProps.

(** C5 (counterexample): a base ending in "ClientService" loses both
    suffixes, not only "Service". *)
Lemma privateFieldName_ClientService_counterexample :
  generatePrivateFieldName "PaymentsClientService" = "payments" /\
  generatePrivateFieldName "PaymentsClientService" <> "paymentsClient".
Proof. split; [reflexivity | discriminate]. Qed.

(** C5 (amended): [generatePrivateFieldName] strips a trailing "Service",
    then a trailing "Client" from what remains, and lower-cases the first
    character; the empty base gives the empty name; "AccountsService"
    gives "accounts" and "InvestmentsClient" gives "investments"; a base
    ending in "ClientService" loses both suffixes. *)
Theorem privateFieldName_policy :
  generatePrivateFieldName "" = "" /\
  generatePrivateFieldName "AccountsService" = "accounts" /\
  generatePrivateFieldName "InvestmentsClient" = "investments" /\
  (forall x, HasSuffix x "Client" = false ->
             generatePrivateFieldName (x +:+ "Service") = lower_first x) /\
  (forall x, generatePrivateFieldName (x +:+ "Client") = lower_first x) /\
  (forall x, generatePrivateFieldName (x +:+ "ClientService") = lower_first x) /\
  (forall x, HasSuffix x "Service" = false -> HasSuffix x "Client" = false ->
             generatePrivateFieldName x = lower_first x).
Proof.
  split; [reflexivity|]. split; [reflexivity|]. split; [reflexivity|].
  split; [|split; [|split]].
  - intros x Hx. unfold generatePrivateFieldName.
    rewrite app_nonempty by discriminate.
    rewrite TrimSuffix_app, TrimSuffix_no by exact Hx.
    apply lower_first_eq.
  - intros x. unfold generatePrivateFieldName.
    rewrite app_nonempty by discriminate.
    rewrite (TrimSuffix_no (x +:+ "Client") "Service" (HasSuffix_Client_Service x)).
    rewrite TrimSuffix_app. apply lower_first_eq.
  - intros x. unfold generatePrivateFieldName.
    rewrite app_nonempty by discriminate.
    replace (x +:+ "ClientService") with ((x +:+ "Client") +:+ "Service")
      by (rewrite app_assoc_s; reflexivity).
    rewrite !TrimSuffix_app. apply lower_first_eq.
  - intros x Hs Hc. unfold generatePrivateFieldName.
    rewrite (TrimSuffix_no x "Service" Hs), (TrimSuffix_no x "Client" Hc).
    destruct (String.eqb x "") eqn:E.
    + apply String.eqb_eq in E. subst. reflexivity.
    + apply lower_first_eq.
Qed.

(** C9: the non-empty bases "Service", "Client" and "ClientService" all
    give the empty private field name. *)
Theorem privateFieldName_empty_results :
  generatePrivateFieldName "Service" = "" /\
  generatePrivateFieldName "Client" = "" /\
  generatePrivateFieldName "ClientService" = "".
Proof. repeat split; reflexivity. Qed.

End NamingProps.

(* ------------------------------------------------------------------ *)
(** ** Configuration *)

Module ConfigProps.

Lemma split_first_none (s : string) (c : ascii) :
  ContainsByte s c = false -> split_first s c = None.
Proof.
  induction s as [|d s IH]; simpl; [reflexivity|].
  intros H. apply orb_false_iff in H as [Hd Hs].
  rewrite Hd, IH by exact Hs. reflexivity.
Qed.

Lemma split_first_app (s : string) (c : ascii) :
  ContainsByte s c = false ->
  split_first (s +:+ String c EmptyString) c = Some (s, EmptyString).
Proof.
  induction s as [|d s IH]; simpl.
  - intros _. rewrite bool_decide_eq_true_2 by reflexivity. reflexivity.
  - intros H. apply orb_false_iff in H as [Hd Hs].
    rewrite Hd, IH by exact Hs. reflexivity.
Qed.

Lemma Split_not_nil (s : string) (c : ascii) : Split s c <> [].
Proof.
  induction s as [|d s IH]; simpl; [discriminate|].
  case_bool_decide; [discriminate|]. destruct (Split s c); discriminate.
Qed.

(** C4 (counterexample): ["vendors.iniciador:"], whose output-subdirectory
    side is empty, is accepted. *)
Lemma parseClientConfig_empty_subdir_counterexample :
  exists cfg, parseClientConfig "vendors.iniciador:" "" = Ok cfg /\
              ClientConfig.OutputSubdir cfg = "".
Proof. eexists. split; reflexivity. Qed.

(** C4 (amended): an empty client string, or one without ':', is a
    configuration error; the sides are not checked for emptiness, and a
    string whose output-subdirectory side is empty (and whose root side,
    trimmed, has a non-empty last segment) yields a configuration with an
    empty output subdirectory. *)
Theorem parseClientConfig_checks :
  (forall client go_module_path,
     client = "" \/ ContainsByte client ":"%char = false ->
     exists msg, parseClientConfig client go_module_path = Err msg) /\
  (forall root go_module_path,
     ContainsByte root ":"%char = false ->
     last (Split (TrimSpace root) "."%char) <> Some "" ->
     exists cfg, parseClientConfig (root +:+ ":") go_module_path = Ok cfg /\
                 ClientConfig.OutputSubdir cfg = "" /\
                 ClientConfig.RootPackage cfg = TrimSpace root).
Proof.
  split.
  - intros client gm [-> | Hc]; [eexists; reflexivity|].
    unfold parseClientConfig.
    destruct (String.eqb client "") eqn:E; [eexists; reflexivity|].
    unfold SplitN2. rewrite split_first_none by exact Hc. eexists; reflexivity.
  - intros root gm Hc Hlast. unfold parseClientConfig.
    rewrite app_nonempty by discriminate.
    unfold SplitN2. rewrite (split_first_app root ":"%char Hc).
    destruct (last (Split (TrimSpace root) "."%char)) as [lp|] eqn:El.
    + destruct lp as [|a lp]; [congruence|]. simpl.
      eexists. split; [reflexivity|]. split; reflexivity.
    + apply last_None in El. exfalso. exact (Split_not_nil _ _ El).
Qed.

End ConfigProps.

(* ------------------------------------------------------------------ *)
(** ** Sorting *)

Module SortFacts.

Lemma insert_by_perm {A} (less : A -> A -> bool) (x : A) (l : list A) :
  insert_by less x l ≡ₚ x :: l.
Proof.
  induction l as [|y l IH]; simpl; [done|].
  destruct (less x y); [done|]. rewrite IH. apply perm_swap.
Qed.

Lemma sort_slice_foldl_perm {A} (less : A -> A -> bool) (l acc : list A) :
  foldl (fun acc x => insert_by less x acc) acc l ≡ₚ l ++ acc.
Proof.
  revert acc. induction l as [|x l IH]; intros acc; simpl; [done|].
  rewrite IH, insert_by_perm. by rewrite Permutation_middle.
Qed.

Lemma sort_slice_perm {A} (less : A -> A -> bool) (l : list A) :
  sort_slice less l ≡ₚ l.
Proof. unfold sort_slice. rewrite sort_slice_foldl_perm. by rewrite app_nil_r. Qed.

End SortFacts.

Import SortFacts.

(* ------------------------------------------------------------------ *)
(** ** Binding extraction and schema collection *)

Module CollectProps.

(** C3 (counterexample): a method whose annotation sets no verb is
    collected exactly like the same method without annotation. *)
Lemma unsupported_pattern_not_reported_counterexample :
  extractHTTPInfo badPattern = Err "unsupported HTTP method pattern" /\
  collectMethod badPattern = collectMethod noAnnotation /\
  extractServices
    [mkFile "a.proto" "root" "a.proto" [mkServiceDesc "PingService" [badPattern]]] "root"
  = extractServices
    [mkFile "a.proto" "root" "a.proto" [mkServiceDesc "PingService" [noAnnotation]]] "root".
Proof. repeat split; reflexivity. Qed.

(** C3 (amended): [extractHTTPInfo] fails with "unsupported HTTP method
    pattern" on an annotation that sets none of GET, POST, PUT, DELETE,
    PATCH (no pattern, or a custom one); the Schema Collector discards
    the error and keeps the method with an absent binding, exactly as if
    it carried no annotation. *)
Theorem unsupported_pattern_swallowed (md : MethodDesc) (r : HttpRule) :
  md_Options md = Some (mkMethodOptions (Some r)) ->
  GetPattern r = None \/ (exists kind path, GetPattern r = Some (Pattern_Custom kind path)) ->
  extractHTTPInfo md = Err "unsupported HTTP method pattern" /\
  Method.HTTP (collectMethod md) = None /\
  collectMethod md = collectMethod (mkMethodDesc (md_Name md) (md_Input md) (md_Output md) None).
Proof.
  intros Hopt Hpat.
  assert (Hx : extractHTTPInfo md = Err "unsupported HTTP method pattern").
  { unfold extractHTTPInfo. rewrite Hopt. simpl.
    destruct Hpat as [-> | (k & p & ->)]; reflexivity. }
  split; [exact Hx|]. unfold collectMethod. rewrite Hx. split; reflexivity.
Qed.

Lemma unsupported_pattern_swallowed_witness :
  md_Options badPattern = Some (mkMethodOptions (Some (mkHttpRule None))) /\
  extractHTTPInfo badPattern = Err "unsupported HTTP method pattern" /\
  Method.HTTP (collectMethod badPattern) = None /\
  collectMethod badPattern = collectMethod noAnnotation.
Proof.
  split; [reflexivity|].
  exact (unsupported_pattern_swallowed badPattern (mkHttpRule None) eq_refl
           (or_introl eq_refl)).
Defined.

(** C2 (code_bug): with root "foo.bar", the service of a file in package
    "foo.barx" is collected ([strings.HasPrefix] is a byte-prefix test),
    although the dot-aware [computeImportSuffix] does not treat
    "foo.barx" as under "foo.bar". *)
Theorem extractServices_includes_foo_barx :
  map Service.Package (extractServices [barxFile] "foo.bar") = ["foo.barx"] /\
  computeImportSuffix "foo.barx" "foo.bar" = "".
Proof. split; reflexivity. Qed.

Lemma extractServices_foldl (files : list File) (rootPackage : string) acc :
  foldl (fun services file =>
           if negb (HasPrefix (file_Package file) rootPackage) then services
           else services ++ map (collectService file) (file_Services file)) acc files
  = acc ++ flat_map (fun file =>
                       if negb (HasPrefix (file_Package file) rootPackage) then []
                       else map (collectService file) (file_Services file)) files.
Proof.
  revert acc. induction files as [|f files IH]; intros acc; simpl.
  - by rewrite app_nil_r.
  - rewrite IH. destruct (negb _); simpl; by rewrite ?app_assoc.
Qed.

Lemma extractServices_elem (files : list File) (rootPackage : string) (s : Service.t) :
  s ∈ extractServices files rootPackage <->
  exists file svc, file ∈ files /\ HasPrefix (file_Package file) rootPackage = true /\
                   svc ∈ file_Services file /\ s = collectService file svc.
Proof.
  unfold extractServices. rewrite sort_slice_perm, extractServices_foldl.
  simpl. rewrite list_elem_of_In, in_flat_map. split.
  - intros (file & Hf & Hs). destruct (HasPrefix _ _) eqn:E; simpl in Hs; [|done].
    apply in_map_iff in Hs as (svc & <- & Hsvc).
    exists file, svc. rewrite !list_elem_of_In. auto.
  - intros (file & svc & Hf & Hp & Hsvc & ->). exists file.
    rewrite <- list_elem_of_In. split; [done|]. rewrite Hp. simpl.
    apply in_map. by apply list_elem_of_In.
Qed.

(** C10: every declared method of a collected service is kept, those
    whose extraction failed with an absent binding; only the emission
    stage drops the methods without binding. *)
Theorem collected_methods_kept (files : list File) (rootPackage : string)
  (file : File) (svc : ServiceDesc) :
  file ∈ files -> HasPrefix (file_Package file) rootPackage = true ->
  svc ∈ file_Services file ->
  exists s, s ∈ extractServices files rootPackage /\
    Service.Methods s ≡ₚ map collectMethod (sd_Methods svc) /\
    (forall md, md ∈ sd_Methods svc -> (forall h, extractHTTPInfo md <> Ok h) ->
       exists m, m ∈ Service.Methods s /\ Method.Name m = md_Name md /\
                 Method.HTTP m = None) /\
    (forall cfg, exists d, generateService s cfg = Ok (serviceFileTemplate d) /\
       map mt_Name (st_Methods d) =
       map Method.Name (filter (fun m => is_Some (Method.HTTP m)) (Service.Methods s))).
Proof.
  intros Hf Hp Hsvc. exists (collectService file svc). split.
  { apply extractServices_elem. eauto 10. }
  split; [apply sort_slice_perm|]. split.
  - intros md Hmd Hfail. exists (collectMethod md). split.
    + simpl. rewrite sort_slice_perm. by apply list_elem_of_fmap_2.
    + split; [reflexivity|]. unfold collectMethod; simpl.
      destruct (extractHTTPInfo md) as [h| |]; [|done..]. by destruct (Hfail h).
  - intros cfg. eexists. split; [reflexivity|]. simpl.
    generalize (sort_slice method_less (map collectMethod (sd_Methods svc))).
    intros l. induction l as [|m l IH]; [done|].
    unfold methodTemplateData in *. simpl.
    destruct (Method.HTTP m) eqn:E; simpl.
    + rewrite filter_cons, decide_True by (rewrite E; eauto). simpl. by f_equal.
    + rewrite filter_cons, decide_False by (rewrite E; intros [? ?]; discriminate).
      exact IH.
Qed.

Lemma collected_methods_kept_witness :
  exists s, s ∈ extractServices [accountsFile] "root" /\
    Service.Methods s ≡ₚ map collectMethod [getAccount; updateAccount; badPattern] /\
    (forall md, md ∈ [getAccount; updateAccount; badPattern] ->
       (forall h, extractHTTPInfo md <> Ok h) ->
       exists m, m ∈ Service.Methods s /\ Method.Name m = md_Name md /\
                 Method.HTTP m = None) /\
    (forall cfg, exists d, generateService s cfg = Ok (serviceFileTemplate d) /\
       map mt_Name (st_Methods d) =
       map Method.Name (filter (fun m => is_Some (Method.HTTP m)) (Service.Methods s))).
Proof.
  apply (collected_methods_kept [accountsFile] "root" accountsFile
           (mkServiceDesc "AccountsService" [getAccount; updateAccount; badPattern]));
    [left | reflexivity | left].
Defined.

End CollectProps.

(* ------------------------------------------------------------------ *)
(** ** Grouping *)

Module GroupProps.

Lemma next_segment_some (rootPkg pkg : string) :
  is_Some (next_segment rootPkg pkg) <->
  length (Split rootPkg "."%char) < length (Split pkg "."%char).
Proof. unfold next_segment. apply lookup_lt_is_Some. Qed.

Lemma groupStep_ok (rootPkg : string) top0 n0 (svc : Service.t) :
  groupStep rootPkg (Ok (top0, n0)) svc =
  if String.eqb (Service.Package svc) rootPkg then Ok (top0 ++ [svc], n0)
  else match next_segment rootPkg (Service.Package svc) with
       | Some c => Ok (top0, <[c := default [] (n0 !! c) ++ [svc]]> n0)
       | None => Ok (top0, n0)
       end.
Proof.
  unfold groupStep, next_segment; simpl.
  destruct (String.eqb _ _); [reflexivity|].
  destruct (Nat.ltb_spec (length (Split rootPkg "."%char))
              (length (Split (Service.Package svc) "."%char))) as [Hlt|Hge].
  - destruct (lookup_lt_is_Some_2 _ _ Hlt) as [c Hc]. by rewrite Hc.
  - by rewrite (lookup_ge_None_2 _ _ Hge).
Qed.

Lemma elem_insert_append (n0 : gmap string (list Service.t)) c svc k s :
  (exists l, <[c := default [] (n0 !! c) ++ [svc]]> n0 !! k = Some l /\ s ∈ l) <->
  (exists l, n0 !! k = Some l /\ s ∈ l) \/ (s = svc /\ k = c).
Proof.
  destruct (decide (k = c)) as [->|Hne].
  - rewrite lookup_insert_eq. split.
    + intros (l & [= <-] & Hs). apply elem_of_app in Hs as [Hs|Hs].
      * left. destruct (n0 !! c) as [l|]; simpl in Hs; [|set_solver]. eauto.
      * right. set_solver.
    + intros [(l & Hl & Hs)|[-> _]]; eexists; split; try done.
      * rewrite Hl. simpl. set_solver.
      * set_solver.
  - rewrite lookup_insert_ne by congruence. split; [eauto|].
    intros [H|[_ ?]]; [done|congruence].
Qed.

Lemma groupServices_foldl (rootPkg : string) (services : list Service.t) top0 n0 :
  exists top n,
    foldl (groupStep rootPkg) (Ok (top0, n0)) services = Ok (top, n) /\
    (forall s, s ∈ top <-> s ∈ top0 \/ (s ∈ services /\ Service.Package s = rootPkg)) /\
    (forall k s, (exists l, n !! k = Some l /\ s ∈ l) <->
       (exists l, n0 !! k = Some l /\ s ∈ l) \/
       (s ∈ services /\ Service.Package s <> rootPkg /\
        next_segment rootPkg (Service.Package s) = Some k)).
Proof.
  revert top0 n0. induction services as [|svc services IH]; intros top0 n0; cbn [foldl].
  - exists top0, n0. split; [done|]. split; intros; set_solver.
  - rewrite groupStep_ok.
    destruct (String.eqb (Service.Package svc) rootPkg) eqn:Eroot.
    { apply String.eqb_eq in Eroot.
      destruct (IH (top0 ++ [svc]) n0) as (top & n & Hrun & Htop & Hn).
      exists top, n. split; [done|]. split.
      - intros s. rewrite Htop. set_solver.
      - intros k s. rewrite Hn. split.
        + intros [H|(Hs & Hp & Hc)]; [by left|right]. set_solver.
        + intros [H|(Hs & Hp & Hc)]; [by left|right].
          apply elem_of_cons in Hs as [->|Hs]; [done|]. done. }
    apply String.eqb_neq in Eroot.
    destruct (next_segment rootPkg (Service.Package svc)) as [c|] eqn:Ec.
    + destruct (IH top0 (<[c := default [] (n0 !! c) ++ [svc]]> n0))
        as (top & n & Hrun & Htop & Hn).
      exists top, n. split; [done|]. split.
      * intros s. rewrite Htop. split; [set_solver|].
        intros [H|[Hs Hp]]; [by left|right].
        apply elem_of_cons in Hs as [->|Hs]; [done|]. done.
      * intros k s. rewrite Hn, elem_insert_append. split.
        -- intros [[H|[-> ->]]|(Hs & Hp & Hk)]; [by left| |].
           ++ right. split; [set_solver|]. done.
           ++ right. split; [set_solver|]. done.
        -- intros [H|(Hs & Hp & Hk)]; [by left; left|].
           apply elem_of_cons in Hs as [->|Hs].
           ++ left. right. split; congruence.
           ++ right. done.
    + destruct (IH top0 n0) as (top & n & Hrun & Htop & Hn).
      exists top, n. split; [done|]. split.
      * intros s. rewrite Htop. split; [set_solver|].
        intros [H|[Hs Hp]]; [by left|right].
        apply elem_of_cons in Hs as [->|Hs]; [done|]. done.
      * intros k s. rewrite Hn. split.
        -- intros [H|(Hs & Hp & Hk)]; [by left|right]. set_solver.
        -- intros [H|(Hs & Hp & Hk)]; [by left|right].
           apply elem_of_cons in Hs as [->|Hs]; [congruence|]. done.
Qed.

(** C7: grouping puts exactly the services of the root namespace in the
    top-level bucket; any other service whose namespace has more segments
    than the root goes to the bucket keyed by its segment at index
    [len(split(rootNamespace))]; the others are dropped, and grouping never
    panics. *)
Theorem groupServices_partition (services : list Service.t) (rootPkg : string) :
  (forall pkg, is_Some (next_segment rootPkg pkg) <->
               length (Split rootPkg "."%char) < length (Split pkg "."%char)) /\
  exists topLevel nested,
    groupServices services rootPkg = Ok (topLevel, nested) /\
    (forall s, s ∈ topLevel <-> s ∈ services /\ Service.Package s = rootPkg) /\
    (forall k l s, nested !! k = Some l ->
       (s ∈ l <-> s ∈ services /\ Service.Package s <> rootPkg /\
                  next_segment rootPkg (Service.Package s) = Some k)) /\
    (forall s k, s ∈ services -> Service.Package s <> rootPkg ->
       next_segment rootPkg (Service.Package s) = Some k ->
       exists l, nested !! k = Some l /\ s ∈ l) /\
    (forall s, s ∈ services -> Service.Package s <> rootPkg ->
       next_segment rootPkg (Service.Package s) = None ->
       (s ∉ topLevel) /\ (forall k l, nested !! k = Some l -> s ∉ l)).
Proof.
  split; [intros; apply next_segment_some|].
  destruct (groupServices_foldl rootPkg services [] ∅) as (top & n & Hrun & Htop & Hn).
  exists top, n. split; [exact Hrun|].
  assert (Hn' : forall k s, (exists l, n !! k = Some l /\ s ∈ l) <->
            s ∈ services /\ Service.Package s <> rootPkg /\
            next_segment rootPkg (Service.Package s) = Some k).
  { intros k s. rewrite Hn. split; [|by right].
    intros [(l & Hl & _)|H]; [by rewrite lookup_empty in Hl|done]. }
  split; [intros s; rewrite Htop; set_solver|].
  split; [|split].
  - intros k l s Hl. rewrite <- Hn'. split; [eauto|].
    intros (l' & Hl' & Hs). congruence.
  - intros s k Hs Hp Hk. apply Hn'. done.
  - intros s Hs Hp Hk. split.
    + rewrite Htop. set_solver.
    + intros k l Hl Hsl. assert (Hx : exists l, n !! k = Some l /\ s ∈ l) by eauto.
      apply Hn' in Hx as (_ & _ & Hx). congruence.
Qed.

End GroupProps.

(* ------------------------------------------------------------------ *)
(** ** Path construction *)

Module PathProps.

Lemma HasPrefix_app (x y : string) : HasPrefix (x +:+ y) x = true.
Proof.
  induction x as [|c x IH]; simpl; [destruct y; reflexivity|].
  rewrite bool_decide_eq_true_2 by reflexivity. exact IH.
Qed.

Lemma HasPrefix_ne (c d : ascii) (s t : string) :
  c <> d -> HasPrefix (String c s) (String d t) = false.
Proof. intros H. simpl. rewrite bool_decide_eq_false_2 by exact H. reflexivity. Qed.

Lemma Replace1_unfold (s old new : string) :
  Replace1 s old new =
  if HasPrefix s old
  then new +:+ String.substring (String.length old)
                 (String.length s - String.length old) s
  else match s with
       | EmptyString => EmptyString
       | String c r => String c (Replace1 r old new)
       end.
Proof. destruct s; reflexivity. Qed.

Lemma Replace1_prefix (x y new : string) :
  Replace1 (x +:+ y) x new = new +:+ y.
Proof.
  rewrite Replace1_unfold, HasPrefix_app, length_app.
  replace (String.length x + String.length y - String.length x)
    with (String.length y) by lia.
  rewrite substring_app_r. reflexivity.
Qed.

Lemma app_nil_r_s (x : string) : x +:+ EmptyString = x.
Proof. induction x; simpl; congruence. Qed.

Lemma Replace1_skip (c : ascii) (s old new : string) :
  HasPrefix (String c s) old = false ->
  Replace1 (String c s) old new = String c (Replace1 s old new).
Proof. intros H. cbn [Replace1]. rewrite H. reflexivity. Qed.

Lemma no_close_map (acc : string) :
  ContainsByte acc "}"%char = false ->
  no_close (map Lit (String.list_ascii_of_string acc)) /\
  wf_segs (map Lit (String.list_ascii_of_string acc)).
Proof.
  induction acc as [|c acc IH]; simpl; [split; [constructor|done]|].
  intros H. apply orb_false_iff in H as [Hc Ha].
  apply bool_decide_eq_false in Hc. destruct (IH Ha) as [Hn Hw].
  split; [constructor; eauto|]. split; [|exact Hw]. intros _. by right.
Qed.

Lemma ContainsByte_snoc (acc : string) (c d : ascii) :
  ContainsByte acc d = false -> c <> d ->
  ContainsByte (acc +:+ String c EmptyString) d = false.
Proof.
  induction acc as [|e acc IH]; simpl; intros H Hc.
  - rewrite bool_decide_eq_false_2 by exact Hc. reflexivity.
  - apply orb_false_iff in H as [He Ha]. rewrite He, IH by done. reflexivity.
Qed.

Lemma scan_props (r : string) :
  (render_mixed 0 (scan r) = r /\ wf_segs (scan r)) /\
  (forall acc, ContainsByte acc "}"%char = false ->
     render_mixed 0 (scan_open acc r) = "{" +:+ acc +:+ r /\
     wf_segs (scan_open acc r)).
Proof.
  induction r as [|c r IH].
  - split; [split; reflexivity|]. intros acc Hacc. simpl. split.
    + f_equal. rewrite app_nil_r_s. clear Hacc. induction acc; simpl; congruence.
    + destruct (no_close_map acc Hacc) as [Hn Hw]. split; [|exact Hw]. by right.
  - destruct IH as [[IHr IHw] IHo]. split.
    + simpl. case_bool_decide as Hc.
      * subst c. destruct (IHo "" eq_refl) as [H1 H2]. split; [exact H1|exact H2].
      * simpl. split; [congruence|]. split; [congruence|exact IHw].
    + intros acc Hacc. simpl. case_bool_decide as Hc.
      * subst c. destruct (String.eqb acc "") eqn:E.
        -- apply String.eqb_eq in E. subst acc. simpl. split; [congruence|].
           split; [by left|]. split; [discriminate|exact IHw].
        -- apply String.eqb_neq in E. simpl. split.
           ++ rewrite IHr. reflexivity.
           ++ split; [exact E|]. split; [exact Hacc|exact IHw].
      * destruct (IHo (acc +:+ String c EmptyString)) as [H1 H2].
        { by apply ContainsByte_snoc. }
        split; [|exact H2]. rewrite H1. f_equal. rewrite app_assoc_s. reflexivity.
Qed.

Lemma wf_slot (l : list Seg) (n : nat) (q : string) :
  wf_segs l -> slots l !! n = Some q -> q <> "" /\ ContainsByte q "}"%char = false.
Proof.
  revert n. induction l as [|[c|p] l IH]; intros n Hw Hq; simpl in *.
  - done.
  - eapply IH; [apply Hw|exact Hq].
  - destruct Hw as (Hp & Hc & Hw). destruct n as [|n]; simpl in Hq.
    + injection Hq as <-. auto.
    + eauto.
Qed.

Lemma no_close_slots (l : list Seg) : no_close l -> slots l = [].
Proof.
  induction 1 as [|sg l (c & -> & _) _ IH]; simpl; [done|exact IH].
Qed.

Lemma slots_lit (c : ascii) (l : list Seg) : slots (Lit c :: l) = slots l.
Proof. reflexivity. Qed.

Lemma slots_slot (p : string) (l : list Seg) : slots (Slot p :: l) = p :: slots l.
Proof. reflexivity. Qed.

Lemma replace_step (l : list Seg) (n : nat) (q : string) :
  wf_segs l -> slots l !! n = Some q ->
  Replace1 (render_mixed n l) ("{" +:+ q +:+ "}") "%s" = render_mixed (S n) l.
Proof.
  intros Hw0 Hq0. destruct (wf_slot l n q Hw0 Hq0) as [Hne Hnc]. revert Hw0 Hq0.
  revert n. induction l as [|[c|p] l IH]; intros n Hw Hq;
    rewrite ?slots_lit, ?slots_slot in Hq; simpl in Hw; cbn [render_mixed].
  - done.
  - destruct Hw as [Hbrace Hw].
    rewrite Replace1_skip; [rewrite IH by done; reflexivity|].
    destruct (decide (c = "{"%char)) as [->|Hc]; [|by apply HasPrefix_ne].
    simpl. try rewrite bool_decide_eq_true_2 by reflexivity.
    destruct (Hbrace eq_refl) as [Hh|Hnc'].
    + destruct l as [|[d|?] l]; simpl in Hh; try discriminate.
      injection Hh as ->. destruct q as [|q0 q]; [done|].
      simpl in Hnc. apply orb_false_iff in Hnc as [Hq0' _].
      apply bool_decide_eq_false in Hq0'. simpl.
      rewrite bool_decide_eq_false_2 by congruence. reflexivity.
    + rewrite no_close_slots in Hq by exact Hnc'. done.
  - destruct Hw as (_ & _ & Hw). destruct n as [|n].
    + simpl in Hq. injection Hq as ->.
      replace ("{" +:+ q +:+ "}" +:+ render_mixed 0 l)
        with (("{" +:+ q +:+ "}") +:+ render_mixed 0 l)
        by (rewrite !app_assoc_s; reflexivity).
      apply Replace1_prefix.
    + simpl in Hq. cbn [String.append].
      rewrite Replace1_skip by reflexivity. rewrite Replace1_skip by reflexivity.
      rewrite IH by done. reflexivity.
Qed.

Lemma render_all (l : list Seg) (n : nat) :
  length (slots l) <= n -> render_mixed n l = plan_template l.
Proof.
  revert n. induction l as [|[c|p] l IH]; intros n Hn; simpl in *; [done| |].
  - f_equal. auto.
  - destruct n as [|n]; [lia|]. rewrite IH by lia. reflexivity.
Qed.

Lemma replace_all (l : list Seg) :
  wf_segs l ->
  forall rest n, drop n (slots l) = rest ->
  foldl (fun t param => Replace1 t ("{" +:+ param +:+ "}") "%s")
        (render_mixed n l) rest = render_mixed (n + length rest) l.
Proof.
  intros Hw rest. induction rest as [|p rest IH]; intros n Hd; cbn [foldl length].
  - by rewrite Nat.add_0_r.
  - assert (Hp : slots l !! n = Some p).
    { rewrite <- (Nat.add_0_r n), <- lookup_drop, Hd. reflexivity. }
    rewrite replace_step by done.
    rewrite IH; [f_equal; lia|].
    rewrite (drop_S _ p n Hp) in Hd. congruence.
Qed.

(** C8: for a template whose parameter list is the list of its
    placeholders read left to right, [buildPathConstruction] gives one
    ["%s"] slot per placeholder occurrence, left to right (a repeated name
    gets one slot per occurrence), and binds the slots in that order to
    [req.] followed by the PascalCase form of each name; e.g. "link_id"
    becomes "LinkId". *)
Theorem buildPathConstruction_slots (path : string) (params : list string) :
  params = extractPathParams path ->
  buildPathConstruction path params = compilePath_spec path /\
  snakeToPascal "link_id" = "LinkId".
Proof.
  intros ->. split; [|reflexivity].
  unfold buildPathConstruction, compilePath_spec, extractPathParams, plan_args.
  destruct (scan_props path) as [[Hr Hw] _].
  rewrite <- Hr at 1.
  rewrite (replace_all (scan path) Hw (slots (scan path)) 0) by reflexivity.
  rewrite render_all by lia. reflexivity.
Qed.

Lemma buildPathConstruction_slots_witness :
  ["a"; "b"; "a"] = extractPathParams "/v1/{a}/x/{b}/{a}" /\
  buildPathConstruction "/v1/{a}/x/{b}/{a}" ["a"; "b"; "a"]
    = compilePath_spec "/v1/{a}/x/{b}/{a}" /\
  snakeToPascal "link_id" = "LinkId".
Proof.
  split; [reflexivity|].
  exact (buildPathConstruction_slots "/v1/{a}/x/{b}/{a}" ["a"; "b"; "a"] eq_refl).
Defined.

End PathProps.

(* ------------------------------------------------------------------ *)
(** ** Verb dispatch in the emitted methods *)

Module EmitProps.

(** C1 (code bug): a service whose methods are bound to [PUT], [DELETE] and
    [PATCH] is emitted without any error, both as a service file and inside
    a nested-services file.  Every one of the three methods dispatches to
    the transport's [Get]; no file calls [Post] or mentions
    [UnsupportedEmissionVerb]. *)
Theorem put_delete_patch_emitted_as_get :
  map (fun d => (HTTPInfo.Method (mt_HTTP d), render_dispatch d))
      (omap methodTemplateData (Service.Methods verbsService))
    = [("DELETE", get_call); ("PATCH", get_call); ("PUT", get_call)] /\
  (exists code, generateService verbsService cfg0 = Ok code /\
     String.index 0 "s.client.Get(ctx, path, resp)" code <> None /\
     String.index 0 "// DeleteAccount makes a DELETE request" code <> None /\
     String.index 0 "s.client.Post(" code = None /\
     String.index 0 "UnsupportedEmissionVerb" code = None) /\
  (exists code, generateNestedServices "Accounts" [verbsService] cfg0 = Ok code /\
     String.index 0 "s.client.Get(ctx, path, resp)" code <> None /\
     String.index 0 "// PatchAccount makes a PATCH request" code <> None /\
     String.index 0 "s.client.Post(" code = None /\
     String.index 0 "UnsupportedEmissionVerb" code = None).
Proof.
  split; [reflexivity|].
  split; eexists; (split; [reflexivity|]); vm_compute;
    repeat split; discriminate.
Qed.

End EmitProps.

(* ------------------------------------------------------------------ *)
(** ** Determinism of a plugin run *)

Module DeterminismProps.

Lemma ltb_false_le (s t : string) : String.ltb s t = false -> String.le t s.
Proof.
  unfold String.ltb, String.le, String.leb.
  rewrite (String.compare_antisym t s).
  destruct (String.compare s t); simpl; auto; discriminate.
Qed.

Lemma ltb_true_le (s t : string) : String.ltb s t = true -> String.le s t.
Proof.
  unfold String.ltb, String.le, String.leb.
  destruct (String.compare s t); simpl; auto; discriminate.
Qed.

Section SortUnique.

Context {A : Type} (key : A -> string) (less : A -> A -> bool).
Hypothesis less_key : forall a b, less a b = String.ltb (key a) (key b).

Lemma insert_by_sorted (x : A) (l : list A) :
  StronglySorted (fun a b => String.le (key a) (key b)) l ->
  StronglySorted (fun a b => String.le (key a) (key b)) (insert_by less x l).
Proof.
  induction l as [|y l IH]; intros Hs; simpl.
  - repeat constructor.
  - inversion Hs as [|? ? Hl Hy]; subst. rewrite less_key.
    destruct (String.ltb (key x) (key y)) eqn:E.
    + apply ltb_true_le in E. constructor; [exact Hs|].
      constructor; [exact E|].
      eapply List.Forall_impl; [|exact Hy]. intros z Hz. etrans; [exact E|exact Hz].
    + apply ltb_false_le in E. constructor; [by apply IH|].
      apply (Permutation_Forall (Permutation_sym (insert_by_perm less x l))).
      by constructor.
Qed.

Lemma sort_slice_sorted (l : list A) :
  StronglySorted (fun a b => String.le (key a) (key b)) (sort_slice less l).
Proof.
  unfold sort_slice.
  assert (Hgen : forall acc,
    StronglySorted (fun a b => String.le (key a) (key b)) acc ->
    StronglySorted (fun a b => String.le (key a) (key b))
      (foldl (fun acc x => insert_by less x acc) acc l)).
  { induction l as [|x l IH]; intros acc Hacc; simpl; [exact Hacc|].
    apply IH. by apply insert_by_sorted. }
  apply Hgen. constructor.
Qed.

Lemma sorted_unique (l1 l2 : list A) :
  l1 ≡ₚ l2 -> NoDup (map key l1) ->
  StronglySorted (fun a b => String.le (key a) (key b)) l1 ->
  StronglySorted (fun a b => String.le (key a) (key b)) l2 ->
  l1 = l2.
Proof.
  revert l2. induction l1 as [|x l1 IH]; intros l2 Hp Hnd S1 S2.
  - symmetry. by apply Permutation_nil.
  - destruct l2 as [|y l2].
    { apply Permutation_sym, Permutation_nil in Hp. discriminate. }
    inversion S1 as [|? ? S1' F1]; subst. inversion S2 as [|? ? S2' F2]; subst.
    simpl in Hnd. apply NoDup_cons in Hnd as [Hx Hnd].
    rewrite list_elem_of_In in Hx.
    destruct (in_inv (Permutation_in y (Permutation_sym Hp) (in_eq y l2)))
      as [<-|Hy].
    + f_equal. apply IH; [by apply Permutation_cons_inv in Hp|done|done|done].
    + exfalso.
      pose proof (proj1 (List.Forall_forall _ _) F1 y Hy) as Rxy.
      destruct (in_inv (Permutation_in x Hp (in_eq x l1))) as [<-|Hx'].
      * apply Hx. by apply in_map.
      * pose proof (proj1 (List.Forall_forall _ _) F2 x Hx') as Ryx.
        assert (Hk : key x = key y) by (by apply (anti_symm String.le)).
        apply Hx. rewrite Hk. by apply in_map.
Qed.

Lemma sort_slice_perm_eq (l1 l2 : list A) :
  l1 ≡ₚ l2 -> NoDup (map key l1) -> sort_slice less l1 = sort_slice less l2.
Proof.
  intros Hp Hnd. apply sorted_unique.
  - by rewrite !sort_slice_perm.
  - rewrite (sort_slice_perm less l1). exact Hnd.
  - apply sort_slice_sorted.
  - apply sort_slice_sorted.
Qed.

End SortUnique.

Lemma sort_strings_perm_eq (l1 l2 : list string) :
  l1 ≡ₚ l2 -> NoDup l1 -> sort_strings l1 = sort_strings l2.
Proof.
  intros Hp Hnd. apply (sort_slice_perm_eq (fun s => s)); [reflexivity|exact Hp|].
  by rewrite map_id.
Qed.

Lemma keys_sorted_eq {V} (m : gmap string V) (l1 l2 : list string) :
  l1 ≡ₚ (map_to_list m).*1 -> l2 ≡ₚ (map_to_list m).*1 ->
  sort_strings l1 = sort_strings l2.
Proof.
  intros H1 H2. apply sort_strings_perm_eq; [by rewrite H1, H2|].
  rewrite H1. apply NoDup_fst_map_to_list.
Qed.

Lemma file_names_keys (m : gmap string File) :
  map_Forall (fun k f => file_Name f = k) m ->
  map file_Name (map_to_list m).*2 = (map_to_list m).*1.
Proof.
  intros H. apply map_Forall_to_list in H. revert H.
  generalize (map_to_list m) as l. intros l H.
  induction H as [|[k f] l Hkf _ IH]; [done|].
  simpl in *. f_equal; [exact Hkf|exact IH].
Qed.

Lemma generateRootClient_sorted (clientName : string) (topLevel : list Service.t)
  (nested : gmap string (list Service.t)) (c1 c2 : list string) (cfg : ClientConfig.t) :
  sort_strings c1 = sort_strings c2 ->
  generateRootClient clientName topLevel nested c1 cfg
  = generateRootClient clientName topLevel nested c2 cfg.
Proof. intros H. unfold generateRootClient. by rewrite H. Qed.

(** C6: two runs of [Execute] on the same parameters and the same input
    files, whose map loops visit the entries in any orders, return the same
    output: the same artifacts (names and contents) in the same order.  The
    input map is keyed by file name, as protoc-gen-star builds it. *)
Theorem Execute_deterministic (httpClientBaseCode : string) (o1 o2 : MapOrder)
  (client go_module_path : string) (targets : gmap string File) :
  valid_order o1 -> valid_order o2 ->
  map_Forall (fun k f => file_Name f = k) targets ->
  Execute httpClientBaseCode o1 client go_module_path targets
  = Execute httpClientBaseCode o2 client go_module_path targets.
Proof.
  intros (Ht1 & Hn1 & Hr1) (Ht2 & Hn2 & Hr2) Hkeys.
  assert (Hfiles : sort_slice file_less (range_targets o1 targets)
                   = sort_slice file_less (range_targets o2 targets)).
  { apply (sort_slice_perm_eq file_Name); [reflexivity|by rewrite Ht1, Ht2|].
    rewrite Ht1, file_names_keys by exact Hkeys. apply NoDup_fst_map_to_list. }
  unfold Execute. rewrite Hfiles.
  destruct (parseClientConfig client go_module_path) as [cfg|e|]; cbn [obind];
    [|reflexivity|reflexivity].
  destruct (groupServices _ _) as [[top nested]|e|]; cbn [obind];
    [|reflexivity|reflexivity].
  rewrite (keys_sorted_eq nested _ _ (Hn1 nested) (Hn2 nested)).
  rewrite (generateRootClient_sorted _ _ _ _ _ _
             (keys_sorted_eq _ _ _ (Hr1 _) (Hr2 _))).
  reflexivity.
Qed.

Lemma Execute_deterministic_witness :
  valid_order order_fwd /\ valid_order order_rev /\
  map_Forall (fun k f => file_Name f = k) targets /\
  Execute "base" order_fwd "root:client" "" targets
  = Execute "base" order_rev "root:client" "" targets.
Proof.
  assert (Hf : valid_order order_fwd) by (repeat split; intros m; reflexivity).
  assert (Hr : valid_order order_rev)
    by (repeat split; intros m; symmetry; apply Permutation_rev).
  assert (Hk : map_Forall (fun k f => file_Name f = k) targets).
  { unfold targets. repeat apply map_Forall_insert_2; try reflexivity.
    apply map_Forall_empty. }
  split; [exact Hf|]. split; [exact Hr|]. split; [exact Hk|].
  exact (Execute_deterministic "base" order_fwd order_rev "root:client" "" targets
           Hf Hr Hk).
Defined.

End DeterminismProps.

(* ------------------------------------------------------------------ *)
(** ** Further properties of the generator *)

Module ImportSuffixProps.

Lemma TrimPrefix_app (x y : string) : TrimPrefix (x +:+ y) x = y.
Proof.
  unfold TrimPrefix. rewrite PathProps.HasPrefix_app, length_app.
  replace (String.length x + String.length y - String.length x)
    with (String.length y) by lia.
  apply substring_app_r.
Qed.

Lemma dots_to_slashes_no_dot (s : string) :
  ContainsByte (dots_to_slashes s) "."%char = false.
Proof.
  induction s as [|c s IH]; [reflexivity|]. cbn [dots_to_slashes map_chars ContainsByte].
  unfold dots_to_slashes in IH. rewrite IH, orb_false_r.
  destruct (decide (c = "."%char)) as [->|Hc]; [reflexivity|].
  rewrite (bool_decide_eq_false_2 (c = "."%char)) by exact Hc.
  apply bool_decide_eq_false_2. exact Hc.
Qed.

(** [computeImportSuffix] is empty for the root package itself and for
    every package outside [rootPkg + "."]; a package [rootPkg + "." +
    suffix] gets ["/"] followed by [suffix] with every dot turned into a
    slash; and the result never contains a dot. *)
Theorem computeImportSuffix_cases :
  (forall rootPkg, computeImportSuffix rootPkg rootPkg = "") /\
  (forall rootPkg suffix,
     computeImportSuffix (rootPkg +:+ "." +:+ suffix) rootPkg
     = "/" +:+ dots_to_slashes suffix) /\
  (forall pkg rootPkg, HasPrefix pkg (rootPkg +:+ ".") = false ->
     computeImportSuffix pkg rootPkg = "") /\
  (forall pkg rootPkg,
     ContainsByte (computeImportSuffix pkg rootPkg) "."%char = false).
Proof.
  split; [intros r; unfold computeImportSuffix; by rewrite String.eqb_refl|].
  split.
  { intros r suffix. unfold computeImportSuffix.
    destruct (String.eqb_spec (r +:+ "." +:+ suffix) r) as [E|_].
    { apply (f_equal String.length) in E. rewrite !length_app in E. simpl in E. lia. }
    rewrite <- app_assoc_s, PathProps.HasPrefix_app, TrimPrefix_app. reflexivity. }
  split.
  { intros pkg r H. unfold computeImportSuffix. rewrite H.
    destruct (String.eqb pkg r); reflexivity. }
  intros pkg r. unfold computeImportSuffix.
  destruct (String.eqb pkg r); [reflexivity|].
  destruct (negb _); [reflexivity|]. apply dots_to_slashes_no_dot.
Qed.

End ImportSuffixProps.

Module ConfigExtraProps.

Lemma split_first_sep (root sub : string) (c : ascii) :
  ContainsByte root c = false ->
  split_first (root +:+ String c sub) c = Some (root, sub).
Proof.
  induction root as [|d root IH]; simpl.
  - intros _. rewrite bool_decide_eq_true_2 by reflexivity. reflexivity.
  - intros H. apply orb_false_iff in H as [Hd Hs].
    rewrite Hd, IH by exact Hs. reflexivity.
Qed.

Lemma Split_snoc_sep (p : string) (c : ascii) :
  Split (p +:+ String c EmptyString) c = Split p c ++ [EmptyString].
Proof.
  induction p as [|d p IH]; simpl.
  - rewrite bool_decide_eq_true_2 by reflexivity. reflexivity.
  - case_bool_decide; [by rewrite IH|].
    rewrite IH. pose proof (ConfigProps.Split_not_nil p c) as Hn.
    destruct (Split p c); [done|reflexivity].
Qed.



(** When the root side, once trimmed, is empty or ends with a dot, its last
    dot-separated segment is empty and [lastPart[:1]] panics: the run
    aborts instead of reporting a configuration error. *)
Theorem parseClientConfig_empty_last_segment_panics (root sub gm : string) :
  ContainsByte root ":"%char = false ->
  TrimSpace root = "" \/ HasSuffix (TrimSpace root) "." = true ->
  parseClientConfig (root +:+ ":" +:+ sub) gm = Panic.
Proof.
  intros Hc Hroot. unfold parseClientConfig.
  rewrite app_nonempty by discriminate.
  unfold SplitN2.
  change (root +:+ ":" +:+ sub) with (root +:+ String ":"%char sub).
  rewrite split_first_sep by exact Hc. cbv zeta.
  assert (Hl : last (Split (TrimSpace root) "."%char) = Some EmptyString).
  { destruct Hroot as [-> | Hs]; [reflexivity|].
    apply HasSuffix_spec in Hs as [p ->].
    rewrite Split_snoc_sep. apply last_snoc. }
  rewrite Hl. reflexivity.
Qed.

Lemma parseClientConfig_empty_last_segment_panics_witness :
  ContainsByte " vendors. " ":"%char = false /\
  (TrimSpace " vendors. " = "" \/ HasSuffix (TrimSpace " vendors. ") "." = true) /\
  parseClientConfig (" vendors. " +:+ ":" +:+ "client") "" = Panic.
Proof.
  assert (H1 : ContainsByte " vendors. " ":"%char = false) by reflexivity.
  assert (H2 : TrimSpace " vendors. " = "" \/ HasSuffix (TrimSpace " vendors. ") "." = true)
    by (right; vm_compute; reflexivity).
  split; [exact H1|]. split; [exact H2|].
  exact (parseClientConfig_empty_last_segment_panics " vendors. " "client" "" H1 H2).
Defined.

End ConfigExtraProps.

Module PathParamsProps.

Lemma scan_lit_prefix (prefix s : string) :
  ContainsByte prefix "{"%char = false ->
  scan (prefix +:+ s) = map Lit (String.list_ascii_of_string prefix) ++ scan s.
Proof.
  induction prefix as [|c prefix IH]; [reflexivity|].
  intros H. simpl in H. apply orb_false_iff in H as [Hc Hp].
  cbn [String.append scan]. rewrite Hc, IH by exact Hp. reflexivity.
Qed.

Lemma scan_open_app (acc p s : string) :
  ContainsByte p "}"%char = false ->
  scan_open acc (p +:+ s) = scan_open (acc +:+ p) s.
Proof.
  revert acc. induction p as [|c p IH]; intros acc H.
  - by rewrite PathProps.app_nil_r_s.
  - simpl in H. apply orb_false_iff in H as [Hc Hp].
    cbn [String.append scan_open]. rewrite Hc, IH by exact Hp.
    by rewrite app_assoc_s.
Qed.

Lemma slots_lits (cs : list ascii) (l : list Seg) : slots (map Lit cs ++ l) = slots l.
Proof. induction cs as [|c cs IH]; [reflexivity|]. exact IH. Qed.

(** [extractPathParams] finds nothing in a path without ['{'].  Otherwise
    the first ['{'] opens a match that ends at the first following ['}']:
    a path [prefix + "{" + p + "}" + rest], where [prefix] has no ['{']
    and [p] is non-empty without ['}'] ([p] may contain ['{']), has [p] as
    its first parameter, followed by the parameters of [rest]. *)
Theorem extractPathParams_compose :
  (forall path, ContainsByte path "{"%char = false -> extractPathParams path = []) /\
  (forall prefix p rest,
     ContainsByte prefix "{"%char = false -> p <> "" ->
     ContainsByte p "}"%char = false ->
     extractPathParams (prefix +:+ "{" +:+ p +:+ "}" +:+ rest)
     = p :: extractPathParams rest).
Proof.
  split.
  - intros path H. unfold extractPathParams.
    rewrite <- (PathProps.app_nil_r_s path), scan_lit_prefix by exact H.
    rewrite slots_lits. reflexivity.
  - intros prefix p rest Hpre Hne Hp. unfold extractPathParams.
    rewrite scan_lit_prefix by exact Hpre. rewrite slots_lits.
    change ("{" +:+ p +:+ "}" +:+ rest) with (String "{"%char (p +:+ "}" +:+ rest)).
    cbn [scan]. rewrite bool_decide_eq_true_2 by reflexivity.
    rewrite scan_open_app by exact Hp.
    change ("}" +:+ rest) with (String "}"%char rest). cbn [scan_open String.append].
    rewrite bool_decide_eq_true_2 by reflexivity.
    destruct (String.eqb_spec p "") as [E|_]; [done|]. reflexivity.
Qed.

(** Every parameter [extractPathParams] returns is non-empty and contains
    no ['}'] (the submatch of [[^}]+]). *)
Theorem extractPathParams_shape (path p : string) :
  p ∈ extractPathParams path -> p <> "" /\ ContainsByte p "}"%char = false.
Proof.
  intros Hp. apply list_elem_of_lookup_1 in Hp as [n Hn].
  destruct (PathProps.scan_props path) as [[_ Hw] _].
  exact (PathProps.wf_slot _ n p Hw Hn).
Qed.

Lemma extractPathParams_shape_witness :
  "a{b" ∈ extractPathParams "/x/{a{b}/y" /\
  "a{b" <> "" /\ ContainsByte "a{b" "}"%char = false.
Proof.
  assert (H : "a{b" ∈ extractPathParams "/x/{a{b}/y")
    by (vm_compute; left).
  split; [exact H|]. exact (extractPathParams_shape "/x/{a{b}/y" "a{b" H).
Defined.

End PathParamsProps.

Module PascalProps.

Lemma ContainsByte_app (x y : string) (c : ascii) :
  ContainsByte (x +:+ y) c = ContainsByte x c || ContainsByte y c.
Proof. induction x as [|d x IH]; simpl; [reflexivity|]. by rewrite IH, orb_assoc. Qed.

Lemma Split_no_sep (s : string) (c : ascii) :
  ContainsByte s c = false -> Split s c = [s].
Proof.
  induction s as [|d s IH]; [reflexivity|]. intros H.
  simpl in H. apply orb_false_iff in H as [Hd Hs]. simpl.
  rewrite Hd, IH by exact Hs. reflexivity.
Qed.

Lemma Split_parts (s : string) (c : ascii) :
  Forall (fun x => ContainsByte x c = false) (Split s c).
Proof.
  induction s as [|d s IH]; simpl; [repeat constructor|].
  case_bool_decide as Hd; [by constructor|].
  destruct (Split s c) as [|h t]; [repeat constructor; simpl; by rewrite bool_decide_eq_false_2|].
  inversion IH as [|? ? Hh Ht]; subst. constructor; [|exact Ht].
  simpl. rewrite Hh, orb_false_r. by apply bool_decide_eq_false_2.
Qed.

Lemma Split_bytes (s : string) (d : ascii) :
  Forall (fun x => forall c, ContainsByte x c = true -> ContainsByte s c = true) (Split s d).
Proof.
  induction s as [|e s IH]; simpl.
  - repeat constructor. intros c H. exact H.
  - case_bool_decide as He.
    + constructor; [intros c H; discriminate H|].
      eapply Forall_impl; [exact IH|]. intros x Hx c H. by rewrite Hx, orb_true_r.
    + destruct (Split s d) as [|h t]; [repeat constructor|].
      * intros c H. simpl in H. rewrite orb_false_r in H. by rewrite H.
      * inversion IH as [|? ? Hh Ht]; subst. constructor.
        -- intros c H. simpl in H. apply orb_true_iff in H as [H|H]; [by rewrite H|].
           by rewrite Hh, orb_true_r.
        -- eapply Forall_impl; [exact Ht|]. intros x Hx c H. by rewrite Hx, orb_true_r.
Qed.

Lemma upper_char_idem (c : ascii) : upper_char (upper_char c) = upper_char c.
Proof. destruct c as [[] [] [] [] [] [] [] []]; reflexivity. Qed.

Lemma upper_char_ascii (c : ascii) :
  (N_of_ascii c < 128)%N -> (N_of_ascii (upper_char c) < 128)%N.
Proof.
  destruct c as [[] [] [] [] [] [] [] []]; vm_compute;
    try reflexivity; intros H; discriminate H.
Qed.

Lemma ToUpper_ascii (c : ascii) :
  (N_of_ascii c < 128)%N -> ToUpper c = String (upper_char c) EmptyString.
Proof. intros H. unfold ToUpper. apply N.ltb_lt in H. by rewrite H. Qed.

Lemma ToUpper_underscore (c : ascii) :
  ContainsByte (ToUpper c) "_"%char = bool_decide (c = "_"%char).
Proof. destruct c as [[] [] [] [] [] [] [] []]; reflexivity. Qed.

Lemma Join_empty_no (l : list string) (c : ascii) :
  Forall (fun x => ContainsByte x c = false) l -> ContainsByte (Join l "") c = false.
Proof.
  induction 1 as [|x l Hx Hl IH]; [reflexivity|].
  destruct l as [|y l]; [exact Hx|].
  change (Join (x :: y :: l) "") with (x +:+ "" +:+ Join (y :: l) "").
  rewrite !ContainsByte_app, Hx, IH. reflexivity.
Qed.

Lemma Join_cap_head (l : list string) :
  Forall (fun x => forall c, ContainsByte x c = true -> (N_of_ascii c < 128)%N) l ->
  let out := Join (map (fun part => match part with
                                    | EmptyString => part
                                    | String c rest => ToUpper c +:+ rest
                                    end) l) "" in
  out = "" \/ exists c r, (N_of_ascii c < 128)%N /\ out = String (upper_char c) r.
Proof.
  induction 1 as [|x l Hx Hl IH]; cbv zeta; [by left|].
  assert (Hhead : forall c r, x = String c r ->
            ToUpper c = String (upper_char c) EmptyString /\ (N_of_ascii c < 128)%N).
  { intros c r ->. assert (Hc : (N_of_ascii c < 128)%N).
    { apply Hx. simpl. by rewrite bool_decide_eq_true_2. }
    split; [by apply ToUpper_ascii|exact Hc]. }
  destruct l as [|y l].
  - destruct x as [|c r]; [by left|]. right.
    destruct (Hhead c r eq_refl) as [Hu Hc]. exists c, r. split; [exact Hc|].
    cbn [map Join]. rewrite Hu. reflexivity.
  - cbv zeta in IH. change (map ?f (x :: y :: l)) with (f x :: map f (y :: l)).
    change (Join (?a :: ?b :: ?t) "") with (a +:+ "" +:+ Join (b :: t) "").
    destruct x as [|c r]; [exact IH|]. right.
    destruct (Hhead c r eq_refl) as [Hu Hc]. cbv beta iota. rewrite Hu.
    exists c. eexists. split; [exact Hc|]. reflexivity.
Qed.

(** [snakeToPascal] never leaves an underscore in its result.  On a name
    without underscore it only passes the first byte through
    [strings.ToUpper] (an ASCII letter is upper-cased, a byte from 0x80 up
    becomes U+FFFD).  On an ASCII name, applying it twice is the same as
    applying it once. *)
Theorem snakeToPascal_props :
  (forall s, ContainsByte (snakeToPascal s) "_"%char = false) /\
  (forall s, (forall c, ContainsByte s c = true -> (N_of_ascii c < 128)%N) ->
     snakeToPascal (snakeToPascal s) = snakeToPascal s) /\
  (forall c r, ContainsByte (String c r) "_"%char = false ->
     snakeToPascal (String c r) = ToUpper c +:+ r).
Proof.
  assert (Hno : forall s, ContainsByte (snakeToPascal s) "_"%char = false).
  { intros s. unfold snakeToPascal. apply Join_empty_no.
    pose proof (Split_parts s "_"%char) as Hp.
    induction Hp as [|x l Hx Hl IH]; constructor; [|exact IH].
    destruct x as [|c r]; [reflexivity|]. simpl in Hx |- *.
    apply orb_false_iff in Hx as [Hc Hr].
    rewrite ContainsByte_app, ToUpper_underscore, Hc. exact Hr. }
  assert (Hone : forall s, ContainsByte s "_"%char = false ->
            snakeToPascal s = match s with
                              | EmptyString => s
                              | String c rest => ToUpper c +:+ rest
                              end).
  { intros s H. unfold snakeToPascal. rewrite Split_no_sep by exact H.
    destruct s; reflexivity. }
  split; [exact Hno|]. split.
  - intros s Hs. rewrite (Hone _ (Hno s)).
    assert (Hp : Forall (fun x => forall c, ContainsByte x c = true -> (N_of_ascii c < 128)%N)
                   (Split s "_"%char)).
    { eapply Forall_impl; [exact (Split_bytes s "_"%char)|]. intros x Hx c H.
      apply Hs, Hx, H. }
    destruct (Join_cap_head (Split s "_"%char) Hp) as [E|(c & r & Hc & E)];
      unfold snakeToPascal; rewrite E; [reflexivity|].
    rewrite (ToUpper_ascii _ (upper_char_ascii c Hc)), upper_char_idem. reflexivity.
  - intros c r H. exact (Hone _ H).
Qed.

End PascalProps.

Module OrderProps.

Section InsertionSort.

Context {A : Type} (less : A -> A -> bool).
Hypothesis less_asym : forall a b, less a b = true -> less b a = false.

Lemma insert_by_Sorted (x : A) (l : list A) :
  Sorted (fun a b => less b a = false) l ->
  Sorted (fun a b => less b a = false) (insert_by less x l).
Proof.
  induction 1 as [|y r Hr IH Hy]; simpl; [repeat constructor|].
  destruct (less x y) eqn:E.
  - constructor; [by constructor|]. constructor. by apply less_asym.
  - constructor; [exact IH|].
    destruct r as [|z r]; simpl; [by constructor|].
    destruct (less x z); constructor; [exact E|by inversion Hy].
Qed.

Lemma sort_slice_Sorted (l : list A) :
  Sorted (fun a b => less b a = false) (sort_slice less l).
Proof.
  unfold sort_slice.
  assert (Hgen : forall acc, Sorted (fun a b => less b a = false) acc ->
    Sorted (fun a b => less b a = false)
      (foldl (fun acc x => insert_by less x acc) acc l)).
  { induction l as [|x l IH]; intros acc Hacc; simpl; [exact Hacc|].
    apply IH. by apply insert_by_Sorted. }
  apply Hgen. constructor.
Qed.

End InsertionSort.

Lemma Sorted_mono {A} (R S : A -> A -> Prop) (l : list A) :
  (forall a b, R a b -> S a b) -> Sorted R l -> Sorted S l.
Proof.
  intros HRS. induction 1 as [|x l _ IH Hx]; constructor; [exact IH|].
  destruct Hx; constructor. by apply HRS.
Qed.

Lemma ltb_asym (s t : string) : String.ltb s t = true -> String.ltb t s = false.
Proof.
  unfold String.ltb. rewrite (String.compare_antisym t s).
  destruct (String.compare s t); simpl; congruence.
Qed.

Lemma service_less_asym (a b : Service.t) :
  service_less a b = true -> service_less b a = false.
Proof.
  unfold service_less. rewrite String.eqb_sym.
  destruct (String.eqb _ _); apply ltb_asym.
Qed.

(** [extractServices] returns the services ordered by package and, within
    one package, by name (byte order); the methods of every returned
    service are ordered by name. *)
Theorem extractServices_sorted (files : list File) (rootPackage : string) :
  Sorted (fun a b =>
            (Service.Package a = Service.Package b /\
             String.le (Service.Name a) (Service.Name b)) \/
            (Service.Package a <> Service.Package b /\
             String.le (Service.Package a) (Service.Package b)))
         (extractServices files rootPackage) /\
  (forall s, s ∈ extractServices files rootPackage ->
     Sorted (fun m1 m2 => String.le (Method.Name m1) (Method.Name m2))
            (Service.Methods s)).
Proof.
  split.
  - eapply Sorted_mono; [|apply (sort_slice_Sorted service_less service_less_asym)].
    intros a b. unfold service_less.
    destruct (String.eqb_spec (Service.Package b) (Service.Package a)) as [E|E].
    + intros H. left. split; [done|]. by apply DeterminismProps.ltb_false_le.
    + intros H. right. split; [done|]. by apply DeterminismProps.ltb_false_le.
  - intros s Hs. apply CollectProps.extractServices_elem in Hs
      as (file & svc & _ & _ & _ & ->). simpl.
    eapply Sorted_mono; [|apply (sort_slice_Sorted method_less)].
    + intros a b H. by apply DeterminismProps.ltb_false_le.
    + intros a b. apply ltb_asym.
Qed.

End OrderProps.

Module GenerateExtraProps.

Lemma mapM_panic {B} (f : string -> outcome B) (l : list string) :
  f "" = Panic -> (forall x, x ∈ l -> x <> "" -> exists y, f x = Ok y) ->
  "" ∈ l -> mapM f l = Panic.
Proof.
  intros Hp Hok. induction l as [|x l IH]; intros Hin; [by apply elem_of_nil in Hin|].
  simpl. destruct (String.eqb_spec x "") as [->|Hx]; [by rewrite Hp|].
  destruct (Hok x (list_elem_of_here x l) Hx) as [y ->]. simpl.
  apply elem_of_cons in Hin as [Hin|Hin]; [congruence|].
  rewrite IH; [reflexivity| |exact Hin].
  intros z Hz. apply Hok. by apply list_elem_of_further.
Qed.

Lemma mapM_ok {B} (f : string -> outcome B) (l : list string) :
  (forall x, x ∈ l -> exists y, f x = Ok y) -> exists ys, mapM f l = Ok ys.
Proof.
  induction l as [|x l IH]; intros Hok; simpl; [by eexists|].
  destruct (Hok x (list_elem_of_here x l)) as [y ->]. simpl.
  destruct IH as [ys ->]; [intros z Hz; apply Hok; by apply list_elem_of_further|].
  by eexists.
Qed.

(** The root client and the nested-services file take [category[:1]]:
    [generateRootClient] panics exactly when one of the categories it is
    given is the empty string, and otherwise succeeds; the nested-services
    file of the empty category panics. *)
Theorem empty_category_panics :
  (forall clientName topLevel nested categories cfg,
     "" ∈ categories ->
     generateRootClient clientName topLevel nested categories cfg = Panic) /\
  (forall clientName topLevel nested categories cfg,
     "" ∉ categories ->
     exists code, generateRootClient clientName topLevel nested categories cfg = Ok code) /\
  (forall services cfg, generateNestedServices "" services cfg = Panic).
Proof.
  split; [|split; [|reflexivity]].
  - intros name top nested cats cfg Hin. unfold generateRootClient.
    rewrite mapM_panic; [reflexivity|reflexivity| |].
    + intros [|c r] _ Hx; [done|]. by eexists.
    + unfold sort_strings. by rewrite sort_slice_perm.
  - intros name top nested cats cfg Hnin. unfold generateRootClient.
    match goal with
    | |- context [mapM ?f ?l] => destruct (mapM_ok f l) as [ys Hys]
    end.
    + intros [|c r] Hx; [|cbn; by eexists].
      unfold sort_strings in Hx. rewrite sort_slice_perm in Hx. done.
    + rewrite Hys. by eexists.
Qed.

Lemma buildPathConstruction_nonempty (path : string) (params : list string) :
  buildPathConstruction path params <> "".
Proof. unfold buildPathConstruction. discriminate. Qed.

Lemma needsFmt_elem (m : Method.t) :
  match Method.HTTP m with
  | Some h => negb (bool_decide (HTTPInfo.PathParams h = []))
  | None => false
  end = true <->
  exists d, methodTemplateData m = Some d /\ mt_PathConstruction d <> "".
Proof.
  unfold methodTemplateData. destruct (Method.HTTP m) as [h|].
  - destruct (HTTPInfo.PathParams h) as [|p ps] eqn:Ep; simpl.
    + split; [discriminate|]. intros (d & [= <-] & Hn). simpl in Hn. done.
    + split; [intros _|done]. eexists. split; [reflexivity|]. simpl.
      apply buildPathConstruction_nonempty.
  - split; [discriminate|]. by intros (d & ? & _).
Qed.

Lemma needsFmt_spec (ms : list Method.t) :
  needsFmt ms = true <->
  exists d, d ∈ omap methodTemplateData ms /\ mt_PathConstruction d <> "".
Proof.
  unfold needsFmt. induction ms as [|m ms IH].
  - simpl. split; [discriminate|]. intros (d & Hd & _). by apply elem_of_nil in Hd.
  - cbn [existsb]. rewrite orb_true_iff, IH, needsFmt_elem.
    assert (Hom : omap methodTemplateData (m :: ms)
                  = match methodTemplateData m with
                    | Some d => d :: omap methodTemplateData ms
                    | None => omap methodTemplateData ms
                    end) by reflexivity.
    rewrite Hom. destruct (methodTemplateData m) as [d0|].
    + split.
      * intros [(d & [= ->] & Hn)|(d & Hd & Hn)]; exists d; split; try done;
          [left|by right].
      * intros (d & Hd & Hn). apply elem_of_cons in Hd as [->|Hd]; [left; by exists d0|].
        right. by exists d.
    + split; [intros [(d & ? & _)|H]; [discriminate|exact H]|intros H; by right].
Qed.

(** A generated file imports ["fmt"] exactly when one of its methods
    builds its path with [fmt.Sprintf] (a non-empty [PathConstruction]):
    for the file of a top-level service and for the file of a non-empty
    category. *)
Theorem fmt_import_iff_used :
  (forall svc cfg, exists d,
     generateService svc cfg = Ok (serviceFileTemplate d) /\
     (st_HasFmt d = true <->
      exists m, m ∈ st_Methods d /\ mt_PathConstruction m <> "")) /\
  (forall category services cfg, category <> "" -> exists d,
     generateNestedServices category services cfg = Ok (nestedServicesFileTemplate d) /\
     (nt_HasFmt d = true <->
      exists sd m, sd ∈ nt_Services d /\ m ∈ st_Methods sd /\
                   mt_PathConstruction m <> "")).
Proof.
  split.
  - intros svc cfg. eexists. split; [reflexivity|]. simpl. apply needsFmt_spec.
  - intros [|c r] services cfg Hne; [done|]. eexists. split; [reflexivity|]. simpl.
    rewrite existsb_exists. split.
    + intros (svc & Hin & Hf). apply needsFmt_spec in Hf as (d & Hd & Hn).
      eexists _, d. split; [apply list_elem_of_In, in_map, Hin|]. split; [exact Hd|exact Hn].
    + intros (sd & m & Hsd & Hm & Hn). apply list_elem_of_In, in_map_iff in Hsd
        as (svc & <- & Hin). exists svc. split; [exact Hin|].
      apply needsFmt_spec. by exists m.
Qed.

End GenerateExtraProps.

Module ExecuteExtraProps.

Lemma keep_generated_length (l : list (outcome Artifact)) (r : list Artifact) :
  keep_generated l = Ok r -> (forall x, x ∈ l -> forall e, x <> Err e) ->
  length r = length l.
Proof.
  revert r. induction l as [|x l IH]; intros r Hk Hne; simpl in Hk.
  - by injection Hk as <-.
  - destruct x as [a|e|]; [|by destruct (Hne _ (list_elem_of_here _ _) e)|discriminate].
    destruct (keep_generated l) as [r'| |] eqn:E; simpl in Hk; try discriminate.
    injection Hk as <-. simpl. f_equal. apply IH; [reflexivity|].
    intros y Hy. apply Hne. by apply list_elem_of_further.
Qed.

Lemma generateNestedServices_not_err (category : string) (services : list Service.t)
  (cfg : ClientConfig.t) (e : string) :
  generateNestedServices category services cfg <> Err e.
Proof. destruct category; discriminate. Qed.

Lemma mapM_not_err {A B} (f : A -> outcome B) (l : list A) (e : string) :
  (forall x e', f x <> Err e') -> mapM f l <> Err e.
Proof.
  intros Hf. induction l as [|x l IH]; simpl; [discriminate|].
  destruct (f x) as [y|e'|] eqn:E; simpl; [|by apply Hf in E|discriminate].
  destruct (mapM f l); simpl; congruence.
Qed.

Lemma generateRootClient_not_err (clientName : string) (topLevel : list Service.t)
  (nested : gmap string (list Service.t)) (categories : list string)
  (cfg : ClientConfig.t) (e : string) :
  generateRootClient clientName topLevel nested categories cfg <> Err e.
Proof.
  unfold generateRootClient.
  match goal with |- context [mapM ?f ?l] =>
    destruct (mapM f l) as [ys|msg|] eqn:E; simpl; try discriminate;
    exfalso; refine (mapM_not_err f l msg _ E)
  end.
  intros [|c r] e'; cbn; discriminate.
Qed.

(** A successful run of [Execute] emits the static HTTP client
    [<subdir>/http/client.gen.go] first and the root client
    [<subdir>/client.gen.go] last, and skips no file: one file per
    top-level service and one per category, [2 + #topLevel + #categories]
    artifacts in all. *)
Theorem Execute_output_shape (httpClientBaseCode : string) (o : MapOrder)
  (client go_module_path : string) (targets : gmap string File)
  (arts : list Artifact) :
  valid_order o ->
  Execute httpClientBaseCode o client go_module_path targets = Ok arts ->
  exists cfg topLevel nested rootCode,
    parseClientConfig client go_module_path = Ok cfg /\
    groupServices (extractServices (sort_slice file_less (range_targets o targets))
                     (ClientConfig.RootPackage cfg))
                  (ClientConfig.RootPackage cfg) = Ok (topLevel, nested) /\
    head arts = Some (PathJoin [ClientConfig.OutputSubdir cfg; "http"; "client.gen.go"],
                      httpClientBaseCode) /\
    last arts = Some (PathJoin [ClientConfig.OutputSubdir cfg; "client.gen.go"], rootCode) /\
    length arts = 2 + length topLevel + size nested.
Proof.
  intros (_ & Hn & _) H. unfold Execute in H.
  destruct (parseClientConfig client go_module_path) as [cfg|e|]; cbn [obind] in H;
    try discriminate.
  destruct (groupServices _ _) as [[top nested]|e|] eqn:Eg; cbn [obind] in H;
    try discriminate.
  match type of H with
  | obind (keep_generated ?l1) _ = _ => destruct (keep_generated l1) as [tA| |] eqn:Et
  end; cbn [obind] in H; try discriminate.
  match type of H with
  | obind (keep_generated ?l2) _ = _ => destruct (keep_generated l2) as [nA| |] eqn:En
  end; cbn [obind] in H; try discriminate.
  match type of H with
  | obind (keep_generated [?x]) _ = _ => destruct x as [code|e|] eqn:Er
  end; cbn [obind keep_generated] in H; try discriminate;
  [|exfalso; revert Er; unfold obind;
    match goal with |- context [generateRootClient ?a ?b ?c ?d ?f] =>
      pose proof (generateRootClient_not_err a b c d f e) as Hne;
      destruct (generateRootClient a b c d f)
    end; congruence].
  injection H as <-.
  destruct (generateRootClient _ _ _ _ _) as [rc| |]; cbn [obind] in Er; try discriminate.
  injection Er as <-.
  exists cfg, top, nested, rc.
  split; [reflexivity|]. split; [exact Eg|]. split; [reflexivity|]. split.
  { rewrite app_comm_cons, !app_assoc. apply last_snoc. }
  apply keep_generated_length in Et.
  2: { intros x Hx e. apply list_elem_of_In, in_map_iff in Hx as (svc & <- & _).
       discriminate. }
  apply keep_generated_length in En.
  2: { intros x Hx e. apply list_elem_of_In, in_map_iff in Hx as (c & <- & _).
       destruct (generateNestedServices _ _ _) as [?|e'|] eqn:Eq; [discriminate| |discriminate].
       by apply generateNestedServices_not_err in Eq. }
  cbn [length app]. rewrite !List.length_app. cbn [length]. rewrite Et, En, !length_map.
  rewrite (Permutation_length (sort_slice_perm _ _)).
  unfold sort_strings. rewrite (Permutation_length (sort_slice_perm _ _)).
  rewrite (Permutation_length (Hn nested)), length_fmap, length_map_to_list. lia.
Qed.

Lemma Execute_output_shape_witness :
  exists arts,
    valid_order order_fwd /\
    Execute "base" order_fwd "root:client" "" targets = Ok arts /\
    exists cfg topLevel nested rootCode,
      parseClientConfig "root:client" "" = Ok cfg /\
      groupServices (extractServices (sort_slice file_less (range_targets order_fwd targets))
                       (ClientConfig.RootPackage cfg))
                    (ClientConfig.RootPackage cfg) = Ok (topLevel, nested) /\
      head arts = Some (PathJoin [ClientConfig.OutputSubdir cfg; "http"; "client.gen.go"],
                        "base") /\
      last arts = Some (PathJoin [ClientConfig.OutputSubdir cfg; "client.gen.go"], rootCode) /\
      length arts = 2 + length topLevel + size nested.
Proof.
  assert (Hf : valid_order order_fwd) by (repeat split; intros m; reflexivity).
  destruct (Execute "base" order_fwd "root:client" "" targets) as [arts|e|] eqn:E;
    [|vm_compute in E; discriminate|vm_compute in E; discriminate].
  exists arts. split; [exact Hf|]. split; [reflexivity|].
  exact (Execute_output_shape "base" order_fwd "root:client" "" targets arts Hf E).
Defined.

End ExecuteExtraProps.

(* ------------------------------------------------------------------ *)
(** * Exact contents of the grouping *)

Module GroupOrderProps.
Import GroupProps.

Lemma groupServices_foldl_exact (rootPkg : string) (services : list Service.t) top0 n0 :
  exists n,
    foldl (groupStep rootPkg) (Ok (top0, n0)) services =
      Ok (top0 ++ filter (fun s => Service.Package s = rootPkg) services, n) /\
    forall k,
      default [] (n !! k) =
        default [] (n0 !! k) ++
        filter (fun s => Service.Package s <> rootPkg /\
                         next_segment rootPkg (Service.Package s) = Some k) services /\
      (n !! k = None <->
       n0 !! k = None /\
       filter (fun s => Service.Package s <> rootPkg /\
                        next_segment rootPkg (Service.Package s) = Some k) services = []).
Proof.
  revert top0 n0. induction services as [|s l IH]; intros top0 n0; cbn [foldl].
  - exists n0. rewrite app_nil_r. split; [done|]. intros k.
    rewrite app_nil_r. split; [done|]. tauto.
  - rewrite groupStep_ok.
    destruct (String.eqb_spec (Service.Package s) rootPkg) as [Hr|Hr].
    + destruct (IH (top0 ++ [s]) n0) as (n & Hf & Hk). exists n.
      rewrite Hf, filter_cons_True by done. rewrite <-(assoc_L app). split; [done|].
      intros k. rewrite filter_cons_False by tauto. apply Hk.
    + destruct (next_segment rootPkg (Service.Package s)) as [c|] eqn:Hc.
      * destruct (IH top0 (<[c := default [] (n0 !! c) ++ [s]]> n0)) as (n & Hf & Hk).
        exists n. rewrite Hf, filter_cons_False by tauto. split; [done|].
        intros k. destruct (Hk k) as [Hd HN].
        destruct (decide (k = c)) as [->|Hne].
        -- rewrite filter_cons_True by tauto.
           rewrite lookup_insert_eq in Hd, HN. simpl in Hd, HN.
           rewrite Hd, <-(assoc_L app). split; [done|].
           split; [intros H; apply HN in H as [? _]; discriminate|].
           intros [_ ?]; discriminate.
        -- rewrite filter_cons_False by (intros [_ ?]; congruence).
           rewrite lookup_insert_ne in Hd, HN by congruence. auto.
      * destruct (IH top0 n0) as (n & Hf & Hk). exists n.
        rewrite Hf, filter_cons_False by tauto. split; [done|].
        intros k. rewrite filter_cons_False by (intros [_ ?]; congruence). apply Hk.
Qed.

(** Grouping of services by package (groupServices) always succeeds.
    The top-level list is exactly the services whose package is the root
    package, in input order. The nested map binds a category exactly when at
    least one non-root service has that category as the package segment
    after the root's segments, and it binds the category to all such
    services in input order: no category is ever bound to an empty list. *)
Theorem groupServices_exact (services : list Service.t) (rootPkg : string) :
  exists topLevel nested,
    groupServices services rootPkg = Ok (topLevel, nested) /\
    topLevel = filter (fun s => Service.Package s = rootPkg) services /\
    forall k,
      nested !! k =
        match filter (fun s => Service.Package s <> rootPkg /\
                               next_segment rootPkg (Service.Package s) = Some k)
                     services with
        | [] => None
        | l => Some l
        end.
Proof.
  destruct (groupServices_foldl_exact rootPkg services [] ∅) as (n & Hf & Hk).
  exists (filter (fun s => Service.Package s = rootPkg) services), n.
  split; [exact Hf|]. split; [done|]. intros k.
  destruct (Hk k) as [Hd HN]. rewrite lookup_empty in Hd, HN. simpl in Hd.
  destruct (n !! k) as [l|] eqn:E; simpl in Hd.
  - rewrite <-Hd. destruct l as [|x l']; [|reflexivity].
    exfalso. assert (Some (@nil Service.t) = None) as ? by (apply HN; split; [done|by rewrite <-Hd]).
    discriminate.
  - rewrite <-Hd. reflexivity.
Qed.

End GroupOrderProps.
